(** * Sophia face firmware: mouth renderer, speech state machine,
      debug cycler and USB serial link.

    Shallow embedding of
      - firmware/friend-esp32-cyd-2_8/src/main_full.cpp  (face engine)
      - the usb-link sketch (serial command loop)
    and the properties of the natural-language specification that
    concern them.

    Conventions.
      - C [int] geometry is carried in [Z]; [/] on ints is [Z.quot] and
        [%] is [Z.rem] (truncation towards zero).
      - [uint32_t] values are [Z] reduced by [u32] at every operation.
      - [float] is IEEE-754 binary32, computed with the standard
        library's [SpecFloat] at precision 24 / emax 128.
      - The graphics library is modelled by the list of drawing calls it
        receives, and by a pixel semantics for the two filling calls.
      - [millis()] and [random()] are external: the state carries the
        sequence of values they will return and a cursor into each.
      - eyes.h is not among the sources: a call into the eyes module is
        given by the display calls it issues ([WithEyes]).
      - [String::trim] and [String::equalsIgnoreCase] follow the Arduino
        core. *)

From Stdlib Require Import ZArith List Bool Lia String Ascii.
From Stdlib Require Import Floats.SpecFloat.
Import ListNotations.
Open Scope Z_scope.

(* ================================================================== *)
(** ** binary32 arithmetic *)
(* ================================================================== *)

Module F32.

Definition prec : Z := 24.
Definition emax : Z := 128.

Definition float := spec_float.

(** [(float)n] for an [int] n. *)
Definition of_int (n : Z) : float := binary_normalize prec emax n 0 false.

Definition mul (x y : float) : float := SFmul prec emax x y.
Definition div (x y : float) : float := SFdiv prec emax x y.

(** Magnitude of m * 2^e rounded to the nearest integer, halves going
    up (the magnitude half of round-half-away-from-zero). *)
Definition round_mag (m : positive) (e : Z) : Z :=
  match e with
  | Z0 => Zpos m
  | Zpos p => Z.shiftl (Zpos m) e
  | Zneg p => (2 * Zpos m + 2 ^ Zpos p) / (2 * 2 ^ Zpos p)
  end.

(** [lroundf] / [roundf] followed by the conversion to [int]: nearest
    integer, ties away from zero.  On infinities and NaN the C result
    is unspecified; the model returns 0 there. *)
Definition lroundf (x : float) : Z :=
  match x with
  | S754_finite s m e => if s then - round_mag m e else round_mag m e
  | _ => 0
  end.

End F32.

(* ================================================================== *)
(** ** Machine integers *)
(* ================================================================== *)

(** Value of a [uint32_t] expression. *)
Definition u32 (z : Z) : Z := z mod 2 ^ 32.

(** Value of a conversion to [int] (two's complement, 32 bits). *)
Definition i32 (z : Z) : Z := (z + 2 ^ 31) mod 2 ^ 32 - 2 ^ 31.

(** Arduino's [constrain(x, lo, hi)] macro. *)
Definition constrain (x lo hi : Z) : Z :=
  if x <? lo then lo else if x >? hi then hi else x.

(* ================================================================== *)
(** ** mouth_patterns.h *)
(* ================================================================== *)

Inductive MouthMood := Neutral | Smile | Frown | Puzzled | Oooh.

(** A frame: one signed offset per segment for each lip
    ([mf.upper[i]], [mf.lower[i]]). *)
Record MouthFrame := { upper : Z -> Z; lower : Z -> Z }.

(** The header mouth_patterns.h is not part of the sources at hand.
    main_full.cpp uses its constants and tables; they are the
    parameters of the development. *)
Class MouthPatterns := {
  MOUTH_SEGMENTS  : Z;
  ANCHOR_PX       : Z;
  MOUTH_MAX_DY    : Z;
  MOUTH_CLEAR_PAD : Z;
  NUM_TALK_FRAMES : Z;
  TALK_FRAMES     : Z -> MouthFrame;
  moodToFrame     : MouthMood -> MouthFrame
}.

(** The panel as configured by [gfx.init(); gfx.setRotation(1)]. *)
Class Panel := { gfx_width : Z; gfx_height : Z }.

Definition TFT_BLACK : Z := 0.
Definition TFT_WHITE : Z := 65535.

(** Calls received by the graphics object. *)
Inductive GfxOp :=
| StartWrite
| EndWrite
| FillScreen (color : Z)
| FillRect (x y w h : Z) (color : Z)
| DrawFastHLine (x y w : Z) (color : Z)
| SetTextColor (fg bg : Z)
| SetFont2
| SetTextDatumMiddleCenter
| DrawString (txt : string) (x y : Z).

(* ================================================================== *)
(** ** Layout / tuning constants of main_full.cpp *)
(* ================================================================== *)

(** [0.55f * (2.0f/3.0f)]: the binary32 value of 0.55 is
    9227469 * 2^-24; quotient and product are rounded to binary32. *)
Definition MOUTH_WIDTH_FACTOR : F32.float :=
  F32.mul (S754_finite false 9227469 (-24))
          (F32.div (F32.of_int 2) (F32.of_int 3)).
Definition MOUTH_BASELINE_OFFSET : Z := 18.
Definition MOUTH_EXTRA_DOWN : Z := 20.

Definition TALK_SWAP_MS_BASE : Z := 160.
Definition TALK_SWAP_JITTER : Z := 40.

Inductive SpeechState := Silent | Talking.

Definition DUR_CHOICES_S : list Z := [5; 10; 15; 20].

Definition DEBUG_MOOD_HOLD_MS : Z := 5000.
Definition DEBUG_MOODS : list MouthMood :=
  [Neutral; Smile; Frown; Puzzled; Oooh].

(** The two build configurations ([#define MODE_DEBUG] or
    [#define MODE_NORMAL]). *)
Inductive BuildMode := MODE_DEBUG | MODE_NORMAL.

(* ================================================================== *)
(** ** Mouth drawing *)
(* ================================================================== *)

(** What one iteration of the segment loop computes: the left edge [x],
    the boundary [nextX], the width actually drawn and the two clamped
    offsets. *)
Record Segment := {
  seg_x : Z; seg_next : Z; seg_w : Z; seg_uy : Z; seg_ly : Z
}.

Section MouthDrawing.
Context {hdr : MouthPatterns} {panel : Panel}.

(** [if (v < -MOUTH_MAX_DY) v = -MOUTH_MAX_DY;
     if (v >  MOUTH_MAX_DY) v =  MOUTH_MAX_DY;] *)
Definition clampDy (v : Z) : Z :=
  let v := if v <? - MOUTH_MAX_DY then - MOUTH_MAX_DY else v in
  if v >? MOUTH_MAX_DY then MOUTH_MAX_DY else v.

(** The [for (int i = 0; i < MOUTH_SEGMENTS; ++i)] loop, [n]
    iterations left, loop variables [i] and [x]. *)
Fixpoint segmentLoop (n : nat) (i x : Z) (mouthX mouthW : Z)
         (step : F32.float) (mf : MouthFrame) : list Segment :=
  match n with
  | O => []
  | S n' =>
    let nextX :=
      if i =? MOUTH_SEGMENTS - 1
      then mouthX + mouthW - ANCHOR_PX
      else mouthX + ANCHOR_PX
           + F32.lroundf (F32.mul step (F32.of_int (i + 1))) in
    let w := nextX - x in
    let w := if w <? 1 then 1 else w in
    {| seg_x := x; seg_next := nextX; seg_w := w;
       seg_uy := clampDy (upper mf i);
       seg_ly := clampDy (lower mf i) |}
    :: segmentLoop n' (i + 1) nextX mouthX mouthW step mf
  end.

Definition mouthX_of (mouthW : Z) : Z := Z.quot (gfx_width - mouthW) 2.

(** The inner segments of a frame; none when [innerW <= 0]. *)
Definition mouthSegments (mouthW : Z) (mf : MouthFrame) : list Segment :=
  let mouthX := mouthX_of mouthW in
  let innerW := mouthW - 2 * ANCHOR_PX in
  if innerW <=? 0 then []
  else
    let step := F32.div (F32.of_int innerW) (F32.of_int MOUTH_SEGMENTS) in
    segmentLoop (Z.to_nat MOUTH_SEGMENTS) 0 (mouthX + ANCHOR_PX)
                mouthX mouthW step mf.

(** The two strokes of one segment. *)
Definition segmentStrokes (baseY : Z) (s : Segment) : list GfxOp :=
  [ DrawFastHLine (seg_x s) (baseY - seg_uy s) (seg_w s) TFT_WHITE;
    DrawFastHLine (seg_x s) (baseY - seg_ly s) (seg_w s) TFT_WHITE ].

Definition drawMouthFrame (baseY mouthW : Z) (mf : MouthFrame)
  : list GfxOp :=
  let mouthX := mouthX_of mouthW in
  let clearY0 := baseY - MOUTH_MAX_DY - MOUTH_CLEAR_PAD in
  let clearY1 := baseY + MOUTH_MAX_DY + MOUTH_CLEAR_PAD in
  [ FillRect mouthX clearY0 mouthW (clearY1 - clearY0 + 1) TFT_BLACK;
    DrawFastHLine mouthX baseY ANCHOR_PX TFT_WHITE;
    DrawFastHLine (mouthX + mouthW - ANCHOR_PX) baseY ANCHOR_PX TFT_WHITE ]
  ++ flat_map (segmentStrokes baseY) (mouthSegments mouthW mf).

(** [idx = (idx % N + N) % N] *)
Definition wrapTalkIdx (idx : Z) : Z :=
  Z.rem (Z.rem idx NUM_TALK_FRAMES + NUM_TALK_FRAMES) NUM_TALK_FRAMES.

Definition clearMoodLabel : list GfxOp :=
  [ FillRect 0 0 gfx_width 20 TFT_BLACK ].

Definition drawMoodLabel (mode : BuildMode) (txt : string) : list GfxOp :=
  match mode with
  | MODE_DEBUG =>
    [ SetTextColor TFT_WHITE TFT_BLACK;
      SetFont2;
      SetTextDatumMiddleCenter;
      FillRect 0 0 gfx_width 20 TFT_BLACK;
      DrawString txt (Z.quot gfx_width 2) 10 ]
  | MODE_NORMAL => []
  end.

End MouthDrawing.

(* ================================================================== *)
(** ** Pixel semantics of the filling calls *)
(* ================================================================== *)

(** A screen gives the colour of every pixel. *)
Definition Screen := Z -> Z -> Z.

(** Colour written at pixel (px, py) by one call, if it touches that
    pixel.  A rectangle covers [x, x+w) x [y, y+h), a horizontal line
    [x, x+w) on row y.  Text and transaction calls are not rasterised. *)
Definition covers (op : GfxOp) (px py : Z) : option Z :=
  match op with
  | FillScreen c => Some c
  | FillRect x y w h c =>
    if (x <=? px) && (px <? x + w) && (y <=? py) && (py <? y + h)
    then Some c else None
  | DrawFastHLine x y w c =>
    if (x <=? px) && (px <? x + w) && (py =? y) then Some c else None
  | _ => None
  end.

Definition paint (s : Screen) (op : GfxOp) : Screen :=
  fun px py => match covers op px py with Some c => c | None => s px py end.

Definition render (ops : list GfxOp) (s : Screen) : Screen :=
  fold_left paint ops s.

(* ================================================================== *)
(** ** Program state and the effects of the sketch *)
(* ================================================================== *)

(** The file-scope variables of main_full.cpp, the two external sources
    ([millis()], [random()]) with the number of calls made so far, and
    the calls issued to the display, oldest first.  The two sources
    give the values received by the calls main_full.cpp makes itself,
    in order; readings and draws made inside the eyes module are not
    counted. *)
Record World := {
  g_speech          : SpeechState;
  g_stateUntilMs    : Z;
  g_currMood        : MouthMood;
  g_nextMouthSwapMs : Z;
  g_currTalkIdx     : Z;
  g_mouthY          : Z;
  g_mouthW          : Z;
  dbg_idx           : Z;
  dbg_nextSwitch    : Z;
  millis_src        : nat -> Z;
  millis_calls      : nat;
  random_src        : nat -> Z;
  random_calls      : nat;
  gfx_calls         : list GfxOp
}.

Definition set_g_speech (v : SpeechState) (w : World) : World :=
  {| g_speech := v; g_stateUntilMs := g_stateUntilMs w;
     g_currMood := g_currMood w; g_nextMouthSwapMs := g_nextMouthSwapMs w;
     g_currTalkIdx := g_currTalkIdx w; g_mouthY := g_mouthY w;
     g_mouthW := g_mouthW w; dbg_idx := dbg_idx w;
     dbg_nextSwitch := dbg_nextSwitch w; millis_src := millis_src w;
     millis_calls := millis_calls w; random_src := random_src w;
     random_calls := random_calls w; gfx_calls := gfx_calls w |}.

Definition set_g_stateUntilMs (v : Z) (w : World) : World :=
  {| g_speech := g_speech w; g_stateUntilMs := v;
     g_currMood := g_currMood w; g_nextMouthSwapMs := g_nextMouthSwapMs w;
     g_currTalkIdx := g_currTalkIdx w; g_mouthY := g_mouthY w;
     g_mouthW := g_mouthW w; dbg_idx := dbg_idx w;
     dbg_nextSwitch := dbg_nextSwitch w; millis_src := millis_src w;
     millis_calls := millis_calls w; random_src := random_src w;
     random_calls := random_calls w; gfx_calls := gfx_calls w |}.

Definition set_g_currMood (v : MouthMood) (w : World) : World :=
  {| g_speech := g_speech w; g_stateUntilMs := g_stateUntilMs w;
     g_currMood := v; g_nextMouthSwapMs := g_nextMouthSwapMs w;
     g_currTalkIdx := g_currTalkIdx w; g_mouthY := g_mouthY w;
     g_mouthW := g_mouthW w; dbg_idx := dbg_idx w;
     dbg_nextSwitch := dbg_nextSwitch w; millis_src := millis_src w;
     millis_calls := millis_calls w; random_src := random_src w;
     random_calls := random_calls w; gfx_calls := gfx_calls w |}.

Definition set_g_nextMouthSwapMs (v : Z) (w : World) : World :=
  {| g_speech := g_speech w; g_stateUntilMs := g_stateUntilMs w;
     g_currMood := g_currMood w; g_nextMouthSwapMs := v;
     g_currTalkIdx := g_currTalkIdx w; g_mouthY := g_mouthY w;
     g_mouthW := g_mouthW w; dbg_idx := dbg_idx w;
     dbg_nextSwitch := dbg_nextSwitch w; millis_src := millis_src w;
     millis_calls := millis_calls w; random_src := random_src w;
     random_calls := random_calls w; gfx_calls := gfx_calls w |}.

Definition set_g_currTalkIdx (v : Z) (w : World) : World :=
  {| g_speech := g_speech w; g_stateUntilMs := g_stateUntilMs w;
     g_currMood := g_currMood w; g_nextMouthSwapMs := g_nextMouthSwapMs w;
     g_currTalkIdx := v; g_mouthY := g_mouthY w;
     g_mouthW := g_mouthW w; dbg_idx := dbg_idx w;
     dbg_nextSwitch := dbg_nextSwitch w; millis_src := millis_src w;
     millis_calls := millis_calls w; random_src := random_src w;
     random_calls := random_calls w; gfx_calls := gfx_calls w |}.

Definition set_mouth_box (y wd : Z) (w : World) : World :=
  {| g_speech := g_speech w; g_stateUntilMs := g_stateUntilMs w;
     g_currMood := g_currMood w; g_nextMouthSwapMs := g_nextMouthSwapMs w;
     g_currTalkIdx := g_currTalkIdx w; g_mouthY := y;
     g_mouthW := wd; dbg_idx := dbg_idx w;
     dbg_nextSwitch := dbg_nextSwitch w; millis_src := millis_src w;
     millis_calls := millis_calls w; random_src := random_src w;
     random_calls := random_calls w; gfx_calls := gfx_calls w |}.

Definition set_dbg_idx (v : Z) (w : World) : World :=
  {| g_speech := g_speech w; g_stateUntilMs := g_stateUntilMs w;
     g_currMood := g_currMood w; g_nextMouthSwapMs := g_nextMouthSwapMs w;
     g_currTalkIdx := g_currTalkIdx w; g_mouthY := g_mouthY w;
     g_mouthW := g_mouthW w; dbg_idx := v;
     dbg_nextSwitch := dbg_nextSwitch w; millis_src := millis_src w;
     millis_calls := millis_calls w; random_src := random_src w;
     random_calls := random_calls w; gfx_calls := gfx_calls w |}.

Definition set_dbg_nextSwitch (v : Z) (w : World) : World :=
  {| g_speech := g_speech w; g_stateUntilMs := g_stateUntilMs w;
     g_currMood := g_currMood w; g_nextMouthSwapMs := g_nextMouthSwapMs w;
     g_currTalkIdx := g_currTalkIdx w; g_mouthY := g_mouthY w;
     g_mouthW := g_mouthW w; dbg_idx := dbg_idx w;
     dbg_nextSwitch := v; millis_src := millis_src w;
     millis_calls := millis_calls w; random_src := random_src w;
     random_calls := random_calls w; gfx_calls := gfx_calls w |}.

Definition tick_millis (w : World) : World :=
  {| g_speech := g_speech w; g_stateUntilMs := g_stateUntilMs w;
     g_currMood := g_currMood w; g_nextMouthSwapMs := g_nextMouthSwapMs w;
     g_currTalkIdx := g_currTalkIdx w; g_mouthY := g_mouthY w;
     g_mouthW := g_mouthW w; dbg_idx := dbg_idx w;
     dbg_nextSwitch := dbg_nextSwitch w; millis_src := millis_src w;
     millis_calls := S (millis_calls w); random_src := random_src w;
     random_calls := random_calls w; gfx_calls := gfx_calls w |}.

Definition tick_random (w : World) : World :=
  {| g_speech := g_speech w; g_stateUntilMs := g_stateUntilMs w;
     g_currMood := g_currMood w; g_nextMouthSwapMs := g_nextMouthSwapMs w;
     g_currTalkIdx := g_currTalkIdx w; g_mouthY := g_mouthY w;
     g_mouthW := g_mouthW w; dbg_idx := dbg_idx w;
     dbg_nextSwitch := dbg_nextSwitch w; millis_src := millis_src w;
     millis_calls := millis_calls w; random_src := random_src w;
     random_calls := S (random_calls w); gfx_calls := gfx_calls w |}.

Definition add_gfx_calls (ops : list GfxOp) (w : World) : World :=
  {| g_speech := g_speech w; g_stateUntilMs := g_stateUntilMs w;
     g_currMood := g_currMood w; g_nextMouthSwapMs := g_nextMouthSwapMs w;
     g_currTalkIdx := g_currTalkIdx w; g_mouthY := g_mouthY w;
     g_mouthW := g_mouthW w; dbg_idx := dbg_idx w;
     dbg_nextSwitch := dbg_nextSwitch w; millis_src := millis_src w;
     millis_calls := millis_calls w; random_src := random_src w;
     random_calls := random_calls w; gfx_calls := gfx_calls w ++ ops |}.

(** Computations over the world; [None] only when a [while] loop was
    given too few iterations. *)
Definition M (A : Type) : Type := World -> option (A * World).

Definition ret {A} (a : A) : M A := fun w => Some (a, w).

Definition bind {A B} (m : M A) (k : A -> M B) : M B :=
  fun w => match m w with
           | Some (a, w') => k a w'
           | None => None
           end.

Definition out_of_fuel {A} : M A := fun _ => None.
Definition get : M World := fun w => Some (w, w).
Definition modify (f : World -> World) : M unit := fun w => Some (tt, f w).

Declare Scope sketch_scope.
Delimit Scope sketch_scope with sketch.
Notation "x <- m ;; k" := (bind m (fun x => k))
  (at level 61, m at next level, right associativity) : sketch_scope.
Notation "m ;;; k" := (bind m (fun _ => k))
  (at level 61, right associativity) : sketch_scope.
Open Scope sketch_scope.

(** State reached by a computation, when it finishes. *)
Definition exec {A} (m : M A) (w : World) : option World :=
  match m w with Some (_, w') => Some w' | None => None end.

(** [nowMs()]: the next reading of the 32-bit millisecond counter. *)
Definition nowMs : M Z :=
  fun w => Some (u32 (millis_src w (millis_calls w)), tick_millis w).

(** Arduino's [random(howbig)]: a value in [0, howbig-1], derived here
    from the next raw value of the generator. *)
Definition random (howbig : Z) : M Z :=
  fun w => Some (random_src w (random_calls w) mod howbig, tick_random w).

(** [lo + (int)(random(0x7fffffff) % (uint32_t)(hi - lo + 1))] *)
Definition randRange (lo hi : Z) : M Z :=
  r <- random 2147483647 ;;
  ret (lo + i32 (u32 r mod u32 (hi - lo + 1))).

(** [DUR_CHOICES_S[ix] * 1000] with [ix = randRange(0, 3)]. *)
Definition pickDurationMs : M Z :=
  ix <- randRange 0 (Z.of_nat (List.length DUR_CHOICES_S) - 1) ;;
  ret (nth (Z.to_nat ix) DUR_CHOICES_S 0 * 1000).

Definition gfx (ops : list GfxOp) : M unit := modify (add_gfx_calls ops).

(* ================================================================== *)
(** ** The sketch: transitions, setup() and loop() *)
(* ================================================================== *)

Section Sketch.
Context {hdr : MouthPatterns} {panel : Panel}.

Definition drawMouthMood (mood : MouthMood) : M unit :=
  w <- get ;;
  gfx (drawMouthFrame (g_mouthY w) (g_mouthW w) (moodToFrame mood)).

Definition drawMouthTalkIdx (idx : Z) : M unit :=
  let idx := wrapTalkIdx idx in
  w <- get ;;
  gfx (drawMouthFrame (g_mouthY w) (g_mouthW w) (TALK_FRAMES idx)).

(** The mood chosen from [pick = randRange(0, 3)]. *)
Definition moodOfPick (pick : Z) : MouthMood :=
  if pick =? 0 then Smile
  else if pick =? 1 then Frown
  else if pick =? 2 then Puzzled
  else Oooh.

(** The label text handed to [drawMoodLabel] by [enterSilent]. *)
Definition silentLabel (m : MouthMood) : string :=
  match m with
  | Smile   => " Smile   "
  | Frown   => " Frown   "
  | Puzzled => " Puzzled "
  | Oooh    => " Oooh    "
  | Neutral => " Neutral "
  end.

Definition enterSilent (mode : BuildMode) : M unit :=
  modify (set_g_speech Silent) ;;;
  now <- nowMs ;;
  dur <- pickDurationMs ;;
  modify (set_g_stateUntilMs (u32 (now + dur))) ;;;
  pick <- randRange 0 3 ;;
  modify (set_g_currMood (moodOfPick pick)) ;;;
  gfx [StartWrite] ;;;
  gfx clearMoodLabel ;;;
  w <- get ;;
  drawMouthMood (g_currMood w) ;;;
  gfx (drawMoodLabel mode (silentLabel (g_currMood w))) ;;;
  gfx [EndWrite].

Definition enterTalking : M unit :=
  modify (set_g_speech Talking) ;;;
  now <- nowMs ;;
  dur <- pickDurationMs ;;
  modify (set_g_stateUntilMs (u32 (now + dur))) ;;;
  idx <- randRange 0 (NUM_TALK_FRAMES - 1) ;;
  modify (set_g_currTalkIdx idx) ;;;
  now2 <- nowMs ;;
  jit <- randRange (- TALK_SWAP_JITTER) TALK_SWAP_JITTER ;;
  modify (set_g_nextMouthSwapMs (u32 (now2 + TALK_SWAP_MS_BASE + jit))) ;;;
  gfx [StartWrite] ;;;
  gfx clearMoodLabel ;;;
  w <- get ;;
  drawMouthTalkIdx (g_currTalkIdx w) ;;;
  gfx [EndWrite].

Definition moodName (m : MouthMood) : string :=
  match m with
  | Neutral => "Neutral"
  | Smile   => "Smile"
  | Frown   => "Frown"
  | Puzzled => "Puzzled"
  | Oooh    => "Oooh"
  end.

(** Drawing done for mood [m] by the debug driver. *)
Definition debugShow (m : MouthMood) : M unit :=
  gfx [StartWrite] ;;;
  drawMouthMood m ;;;
  gfx clearMoodLabel ;;;
  gfx (drawMoodLabel MODE_DEBUG (moodName m)) ;;;
  gfx [EndWrite].

(** [setup()], from [gfx.fillScreen] on, without the call of
    [Eyes::init]: what main_full.cpp does itself.  The eyes module is a
    separate unit: the three values read from [EYES] after [Eyes::init]
    are arguments.  [WithEyes.setup] below has the call of
    [Eyes::init]. *)
Definition setup (mode : BuildMode) (eyes_oldCy eyes_cy eyes_rWhite : Z)
  : M unit :=
  gfx [FillScreen TFT_BLACK] ;;;
  let H := gfx_height in
  let defaultMouthY := H - MOUTH_BASELINE_OFFSET in
  let deltaY := eyes_oldCy - eyes_cy in
  modify (set_mouth_box
            (constrain (defaultMouthY - deltaY + MOUTH_EXTRA_DOWN)
                       (eyes_cy + eyes_rWhite + 8) (H - 4))
            (F32.lroundf (F32.mul (F32.of_int gfx_width)
                                  MOUTH_WIDTH_FACTOR))) ;;;
  match mode with
  | MODE_DEBUG =>
    modify (set_dbg_idx 0) ;;;
    debugShow (nth 0 DEBUG_MOODS Neutral) ;;;
    now <- nowMs ;;
    modify (set_dbg_nextSwitch (u32 (now + DEBUG_MOOD_HOLD_MS)))
  | MODE_NORMAL => enterSilent mode
  end.

(** [while (nextIdx == g_currTalkIdx)
       nextIdx = randRange(0, NUM_TALK_FRAMES-1);] *)
Fixpoint whileSameIdx (fuel : nat) (nextIdx : Z) : M Z :=
  match fuel with
  | O => out_of_fuel
  | S fuel' =>
    w <- get ;;
    if nextIdx =? g_currTalkIdx w then
      r <- randRange 0 (NUM_TALK_FRAMES - 1) ;;
      whileSameIdx fuel' r
    else ret nextIdx
  end.

(** Body of [if (g_speech == Talking && tNow >= g_nextMouthSwapMs)]. *)
Definition swapTalkFrame (fuel : nat) (tNow : Z) : M unit :=
  w <- get ;;
  nextIdx <- whileSameIdx fuel (g_currTalkIdx w) ;;
  modify (set_g_currTalkIdx nextIdx) ;;;
  gfx [StartWrite] ;;;
  drawMouthTalkIdx nextIdx ;;;
  gfx [EndWrite] ;;;
  jit <- randRange (- TALK_SWAP_JITTER) TALK_SWAP_JITTER ;;
  modify (set_g_nextMouthSwapMs (u32 (tNow + TALK_SWAP_MS_BASE + jit))).

(** One pass of [loop()] from the reading of the clock on, that is,
    what follows the call of [Eyes::update]; [WithEyes.loop] below is
    the pass with that call. *)
Definition loop (mode : BuildMode) (fuel : nat) : M unit :=
  match mode with
  | MODE_DEBUG =>
    tNow <- nowMs ;;
    w <- get ;;
    if dbg_nextSwitch w <=? tNow then
      let idx := Z.rem (dbg_idx w + 1) (Z.of_nat (List.length DEBUG_MOODS)) in
      modify (set_dbg_idx idx) ;;;
      debugShow (nth (Z.to_nat idx) DEBUG_MOODS Neutral) ;;;
      modify (set_dbg_nextSwitch (u32 (tNow + DEBUG_MOOD_HOLD_MS)))
    else ret tt
  | MODE_NORMAL =>
    tNow <- nowMs ;;
    w <- get ;;
    (if g_stateUntilMs w <=? tNow then
       match g_speech w with
       | Silent => enterTalking
       | Talking => enterSilent mode
       end
     else ret tt) ;;;
    w <- get ;;
    match g_speech w with
    | Talking =>
      if g_nextMouthSwapMs w <=? tNow then swapTalkFrame fuel tNow
      else ret tt
    | Silent => ret tt
    end
  end.

(** Consecutive passes of [loop()]. *)
Fixpoint loops (mode : BuildMode) (fuel : nat) (n : nat) : M unit :=
  match n with
  | O => ret tt
  | S n' => loop mode fuel ;;; loops mode fuel n'
  end.

End Sketch.

(** The power-on values of the file-scope variables, for given
    external sources. *)
Definition boot (millis_values random_values : nat -> Z) : World :=
  {| g_speech := Silent; g_stateUntilMs := 0; g_currMood := Neutral;
     g_nextMouthSwapMs := 0; g_currTalkIdx := 0;
     g_mouthY := -1; g_mouthW := -1;
     dbg_idx := 0; dbg_nextSwitch := 0;
     millis_src := millis_values; millis_calls := 0;
     random_src := random_values; random_calls := 0;
     gfx_calls := [] |}.

(* ================================================================== *)
(** ** setup() and loop() with the calls into the eyes module *)
(* ================================================================== *)

Module WithEyes.

(** eyes.h is not among the sources.  [Eyes::init] and [Eyes::update]
    are handed the display and the [EYES] state; the header is included
    before the file-scope variables of main_full.cpp are declared, so
    the module cannot name them.  A call into the module is described
    by the calls it issues to the display, in order; nothing is assumed
    about them. *)
Definition EyesCall : Type := list GfxOp.

Section Sketch.
Context {hdr : MouthPatterns} {panel : Panel}.

(** [Eyes::init(gfx, EYES, E_LAYOUT)] *)
Definition Eyes_init (init : EyesCall) : M unit := gfx init.

(** [Eyes::update(gfx, EYES, dt)] *)
Definition Eyes_update (upd : EyesCall) : M unit := gfx upd.

(** [setup()], from [gfx.fillScreen] on. *)
Definition setup (mode : BuildMode) (init : EyesCall)
           (eyes_oldCy eyes_cy eyes_rWhite : Z) : M unit :=
  gfx [FillScreen TFT_BLACK] ;;;
  Eyes_init init ;;;
  let H := gfx_height in
  let defaultMouthY := H - MOUTH_BASELINE_OFFSET in
  let deltaY := eyes_oldCy - eyes_cy in
  modify (set_mouth_box
            (constrain (defaultMouthY - deltaY + MOUTH_EXTRA_DOWN)
                       (eyes_cy + eyes_rWhite + 8) (H - 4))
            (F32.lroundf (F32.mul (F32.of_int gfx_width)
                                  MOUTH_WIDTH_FACTOR))) ;;;
  match mode with
  | MODE_DEBUG =>
    modify (set_dbg_idx 0) ;;;
    debugShow (nth 0 DEBUG_MOODS Neutral) ;;;
    now <- nowMs ;;
    modify (set_dbg_nextSwitch (u32 (now + DEBUG_MOOD_HOLD_MS)))
  | MODE_NORMAL => enterSilent mode
  end.

(** One pass of [loop()]: the eyes are updated, then the driver of
    the build runs. *)
Definition loop (mode : BuildMode) (fuel : nat) (upd : EyesCall) : M unit :=
  Eyes_update upd ;;;
  loop mode fuel.

(** Consecutive passes of [loop()], one eyes update each. *)
Fixpoint loops (mode : BuildMode) (fuel : nat) (upds : list EyesCall)
  : M unit :=
  match upds with
  | [] => ret tt
  | upd :: r => loop mode fuel upd ;;; loops mode fuel r
  end.

End Sketch.

End WithEyes.

(* ================================================================== *)
(** ** The usb-link sketch (serial command loop) *)
(* ================================================================== *)

Module UsbLink.

Open Scope string_scope.

Definition CR : ascii := ascii_of_nat 13.
Definition LF : ascii := ascii_of_nat 10.
(** The double-quote character. *)
Definition dq : string := String (ascii_of_nat 34) EmptyString.

(** C [isspace] in the default locale: space, \t, \n, \v, \f, \r. *)
Definition isspace (c : ascii) : bool :=
  let n := nat_of_ascii c in
  (Nat.eqb n 32 || (Nat.leb 9 n && Nat.leb n 13))%bool.

(** C [tolower] in the default locale. *)
Definition tolower (c : ascii) : ascii :=
  let n := nat_of_ascii c in
  if (Nat.leb 65 n && Nat.leb n 90)%bool then ascii_of_nat (n + 32) else c.

Definition is_empty (s : string) : bool :=
  match s with EmptyString => true | _ => false end.

Fixpoint trim_left (s : string) : string :=
  match s with
  | EmptyString => EmptyString
  | String c r => if isspace c then trim_left r else s
  end.

Fixpoint trim_right (s : string) : string :=
  match s with
  | EmptyString => EmptyString
  | String c r =>
    let r' := trim_right r in
    if (isspace c && is_empty r')%bool then EmptyString else String c r'
  end.

(** [String::trim]: leading and trailing white space removed. *)
Definition trim (s : string) : string := trim_right (trim_left s).

Definition NUL : ascii := ascii_of_nat 0.

(** The comparison loop of the Arduino core's [String::equalsIgnoreCase],
    which runs while the byte under [p1] is not NUL and returns 0 as
    soon as [tolower] of the byte under [p1] differs from [tolower] of
    the byte under [p2], both pointers moving on by one, and returns 1
    after the loop; [a] holds the bytes from [p1] on and [b] those from
    [p2] on.  It ends at the first NUL byte met in the receiver, be it
    the terminator of the buffer or a NUL byte stored in the string. *)
Fixpoint sameUntilNul (a b : string) : bool :=
  match a with
  | EmptyString => true
  | String x a' =>
    if Ascii.eqb x NUL then true
    else
      match b with
      | EmptyString => false
      | String y b' =>
        if Ascii.eqb (tolower x) (tolower y) then sameUntilNul a' b'
        else false
      end
  end.

(** [String::equalsIgnoreCase] of the Arduino core: the two lengths are
    compared first, two empty strings are equal, and strings of the same
    length are compared byte by byte after [tolower] up to the first NUL
    byte of the receiver. *)
Definition equalsIgnoreCase (a b : string) : bool :=
  if negb (Nat.eqb (String.length a) (String.length b)) then false
  else if Nat.eqb (String.length a) 0 then true
  else sameUntilNul a b.

(** The static [line] buffer, the level of LED_BUILTIN and every byte
    written to [Serial] so far. *)
Record Link := { line : string; led : bool; serial_out : string }.

Definition HIGH : bool := true.
Definition LOW : bool := false.

Definition Serial_print (s : string) (st : Link) : Link :=
  {| line := line st; led := led st; serial_out := serial_out st ++ s |}.

(** [Serial.println]: the text followed by CR LF. *)
Definition Serial_println (s : string) (st : Link) : Link :=
  Serial_print (s ++ String CR (String LF EmptyString)) st.

Definition digitalWrite (v : bool) (st : Link) : Link :=
  {| line := line st; led := v; serial_out := serial_out st |}.

Definition set_line (s : string) (st : Link) : Link :=
  {| line := s; led := led st; serial_out := serial_out st |}.

Definition ready_msg : string :=
  "{" ++ dq ++ "status" ++ dq ++ ":" ++ dq ++ "ready" ++ dq ++ ","
      ++ dq ++ "app" ++ dq ++ ":" ++ dq ++ "usb-link" ++ dq ++ "}".
Definition ack_start_smile : string :=
  "{" ++ dq ++ "ack" ++ dq ++ ":" ++ dq ++ "start_smile" ++ dq ++ "}".
Definition ack_stop : string :=
  "{" ++ dq ++ "ack" ++ dq ++ ":" ++ dq ++ "stop" ++ dq ++ "}".
Definition error_head : string :=
  "{" ++ dq ++ "error" ++ dq ++ ":" ++ dq ++ "unknown_cmd" ++ dq ++ ","
      ++ dq ++ "cmd" ++ dq ++ ":" ++ dq.
Definition error_tail : string := dq ++ "}".

Definition setup (st : Link) : Link := Serial_println ready_msg st.

(** What is done with a complete, non-empty [line]. *)
Definition handleLine (st : Link) : Link :=
  let st := set_line (trim (line st)) st in
  let st :=
    if equalsIgnoreCase (line st) "start smile" then
      digitalWrite HIGH (Serial_println ack_start_smile st)
    else if equalsIgnoreCase (line st) "stop" then
      digitalWrite LOW (Serial_println ack_stop st)
    else
      Serial_println error_tail
        (Serial_print (line st) (Serial_print error_head st)) in
  set_line "" st.

(** One iteration of [while (Serial.available())] on byte [c]. *)
Definition onChar (st : Link) (c : ascii) : Link :=
  if (Ascii.eqb c LF || Ascii.eqb c CR)%bool then
    if Nat.eqb (String.length (line st)) 0 then st else handleLine st
  else set_line (line st ++ String c EmptyString) st.

(** [loop()] with the bytes [rx] waiting in the receive buffer. *)
Definition loop (rx : list ascii) (st : Link) : Link :=
  fold_left onChar rx st.

End UsbLink.

(* ================================================================== *)
(** ** Observations used in the statements *)
(* ================================================================== *)

Definition sumWidths (segs : list Segment) : Z :=
  fold_right Z.add 0 (map seg_w segs).

Fixpoint lastSegment (segs : list Segment) : option Segment :=
  match segs with
  | [] => None
  | [s] => Some s
  | _ :: r => lastSegment r
  end.

(** Each drawn segment starts where the previous one ends, the first
    one at [x0]. *)
Fixpoint contiguous (x0 : Z) (segs : list Segment) : Prop :=
  match segs with
  | [] => True
  | s :: r => seg_x s = x0 /\ contiguous (seg_x s + seg_w s) r
  end.

(** The width of a segment was not raised by [if (w < 1) w = 1]. *)
Definition unforced (s : Segment) : Prop := seg_x s < seg_next s.

Definition unforcedb (s : Segment) : bool := seg_x s <? seg_next s.

(** Exactness of the partition of the mouth box: the drawn widths and
    the two anchors add up to the mouth width, the drawn segments tile
    the inner region from the left anchor on, and the last one ends on
    the left edge of the right anchor. *)
Definition partition_exact {hdr : MouthPatterns} {panel : Panel}
           (mouthW : Z) (mf : MouthFrame) : Prop :=
  let segs := mouthSegments mouthW mf in
  sumWidths segs + 2 * ANCHOR_PX = mouthW
  /\ contiguous (mouthX_of mouthW + ANCHOR_PX) segs
  /\ (forall s, lastSegment segs = Some s ->
                seg_x s + seg_w s = mouthX_of mouthW + mouthW - ANCHOR_PX).

(** Colour left at a pixel by the last call of [ops] touching it. *)
Fixpoint lastCover (ops : list GfxOp) (px py : Z) : option Z :=
  match ops with
  | [] => None
  | op :: r =>
    match lastCover r px py with
    | Some c => Some c
    | None => covers op px py
    end
  end.

(** Texts handed to [drawString], in order. *)
Fixpoint shownLabels (ops : list GfxOp) : list string :=
  match ops with
  | [] => []
  | DrawString txt _ _ :: r => txt :: shownLabels r
  | _ :: r => shownLabels r
  end.

(** A sample header used to run the definitions: 8 segments, 2-pixel
    anchors, offsets limited to 10, 6 talk frames; the frame tables hold
    values inside and outside the offset range. *)
Definition sample_patterns : MouthPatterns :=
  {| MOUTH_SEGMENTS := 8; ANCHOR_PX := 2; MOUTH_MAX_DY := 10;
     MOUTH_CLEAR_PAD := 2; NUM_TALK_FRAMES := 6;
     TALK_FRAMES := fun k => {| upper := fun i => k + i;
                                lower := fun i => - k - 20 |};
     moodToFrame := fun m => {| upper := fun i => 3;
                                lower := fun i => -3 |} |}.

(** The sample header with another segment count. *)
Definition sample_with_segments (segs : Z) : MouthPatterns :=
  {| MOUTH_SEGMENTS := segs; ANCHOR_PX := 2; MOUTH_MAX_DY := 10;
     MOUTH_CLEAR_PAD := 2; NUM_TALK_FRAMES := 6;
     TALK_FRAMES := @TALK_FRAMES sample_patterns;
     moodToFrame := @moodToFrame sample_patterns |}.

(** A frame of zero offsets. *)
Definition flat_frame : MouthFrame :=
  {| upper := fun _ => 0; lower := fun _ => 0 |}.

(** The 320 x 240 panel in landscape orientation. *)
Definition cyd_panel : Panel := {| gfx_width := 320; gfx_height := 240 |}.

(** The value [randRange(lo, hi)] makes of the raw value [raw] of the
    generator. *)
Definition rangeDraw (lo hi raw : Z) : Z :=
  lo + i32 (u32 (raw mod 2147483647) mod u32 (hi - lo + 1)).

(** The raw value the generator gives at its [k]-th call from now, and
    the [k]-th clock reading from now. *)
Definition raw_at (w : World) (k : nat) : Z :=
  random_src w (k + random_calls w)%nat.
Definition clock_at (w : World) (k : nat) : Z :=
  u32 (millis_src w (k + millis_calls w)%nat).

(** The world after [k] further calls of the generator. *)
Definition ticks (k : nat) (w : World) : World := Nat.iter k tick_random w.

(** A world in the middle of a talking phase on the sample header:
    frame 2 is shown, the swap is due at 1000 ms, the phase ends at
    9000 ms; the clock reads 1000, 1020, ... and the generator gives
    2, 9, 16, ... *)
Definition sample_talking : World :=
  {| g_speech := Talking; g_stateUntilMs := 9000; g_currMood := Smile;
     g_nextMouthSwapMs := 1000; g_currTalkIdx := 2;
     g_mouthY := 222; g_mouthW := 117;
     dbg_idx := 0; dbg_nextSwitch := 0;
     millis_src := fun n => 1000 + 20 * Z.of_nat n; millis_calls := 0;
     random_src := fun n => 7 * Z.of_nat n + 2; random_calls := 0;
     gfx_calls := [] |}.

(** The first [n] entries of the endless repetition of DEBUG_MOODS. *)
Definition cycleMoods (n : nat) : list MouthMood :=
  map (fun i => nth (i mod 5) DEBUG_MOODS Neutral) (seq 0 n).

(** The calls by which the debug driver shows mood [m]. *)
Definition debugOps {hdr : MouthPatterns} {panel : Panel}
           (w : World) (m : MouthMood) : list GfxOp :=
  [StartWrite]
    ++ drawMouthFrame (g_mouthY w) (g_mouthW w) (moodToFrame m)
    ++ clearMoodLabel
    ++ drawMoodLabel MODE_DEBUG (moodName m)
    ++ [EndWrite].

(** The state of the cycler after [k] switches: the index is [k]
    modulo 5 and the labels drawn so far are the first [k+1] of the
    cycle. *)
Definition cycler_at (k : nat) (w : World) : Prop :=
  dbg_idx w = Z.of_nat (k mod 5)
  /\ shownLabels (gfx_calls w) = map moodName (cycleMoods (S k)).

(** Among [n] passes of the debug driver from [w], the times read by
    the passes that drew something. *)
Fixpoint debugSwitchTimes {hdr : MouthPatterns} {panel : Panel}
         (n : nat) (w : World) : list Z :=
  match n with
  | O => []
  | S n' =>
    match loop MODE_DEBUG 0 w with
    | Some (_, w') =>
      (if Nat.ltb (List.length (gfx_calls w)) (List.length (gfx_calls w'))
       then [clock_at w 0] else [])
        ++ debugSwitchTimes n' w'
    | None => []
    end
  end.

(** A debug build on the sample header, powered on with clock readings
    [clock]: the switch times among the first [n] passes, and the labels
    drawn up to the end of these passes. *)
Definition debugRunSwitches (clock : nat -> Z) (n : nat) : list Z :=
  match @setup sample_patterns cyd_panel MODE_DEBUG 120 120 40
               (boot clock (fun _ => 0)) with
  | Some (_, w0) => @debugSwitchTimes sample_patterns cyd_panel n w0
  | None => []
  end.
Definition debugRunLabels (clock : nat -> Z) (n : nat) : list string :=
  match exec (@setup sample_patterns cyd_panel MODE_DEBUG 120 120 40 ;;;
              @loops sample_patterns cyd_panel MODE_DEBUG 0 n)
             (boot clock (fun _ => 0)) with
  | Some w => shownLabels (gfx_calls w)
  | None => []
  end.

(** Time between consecutive events, the first one counted from [t0]. *)
Fixpoint gaps (t0 : Z) (ts : list Z) : list Z :=
  match ts with
  | [] => []
  | t :: r => (t - t0) :: gaps t r
  end.

(** Every mood was held for exactly, resp. at least, the hold time. *)
Definition held_exactly (t0 : Z) (switches : list Z) : Prop :=
  Forall (fun d => d = DEBUG_MOOD_HOLD_MS) (gaps t0 switches).
Definition held_at_least (t0 : Z) (switches : list Z) : Prop :=
  Forall (fun d => DEBUG_MOOD_HOLD_MS <= d) (gaps t0 switches).

(** Every mood was held for the hold time, to within the time [gap]
    between two passes: from the hold time on and less than [gap]
    longer. *)
Definition held_within (gap t0 : Z) (switches : list Z) : Prop :=
  Forall (fun d => DEBUG_MOOD_HOLD_MS <= d < DEBUG_MOOD_HOLD_MS + gap)
         (gaps t0 switches).

(** The clock of a sketch whose passes come every [period] ms, the
    first reading being 0. *)
Definition steady_clock (period : Z) (i : nat) : Z := period * Z.of_nat i.

(** No width is forced for [segs] segments on the 320-pixel panel, for
    each of the [count] mouth widths from [first] on. *)
Definition widths_unforced (segs first count : nat) : bool :=
  forallb (fun mw =>
             forallb unforcedb
                     (@mouthSegments (sample_with_segments (Z.of_nat segs))
                                     cyd_panel (Z.of_nat mw) flat_frame))
          (seq first count).

(** A white horizontal stroke. *)
Definition is_white_stroke (op : GfxOp) : Prop :=
  exists x y w, op = DrawFastHLine x y w TFT_WHITE.

(** The world after [n] further readings of the clock. *)
Definition clock_reads (n : nat) (w : World) : World :=
  Nat.iter n tick_millis w.

(** The mouth width [setup()] computes for a panel [W] pixels wide:
    [(int)roundf(W * MOUTH_WIDTH_FACTOR)]. *)
Definition mouthWidthOf (W : Z) : Z :=
  F32.lroundf (F32.mul (F32.of_int W) MOUTH_WIDTH_FACTOR).

(** The mouth width for panel width [W] lies on the panel and is 11/30
    of the width to the nearest pixel. *)
Definition mouth_width_ok (W : nat) : bool :=
  let m := mouthWidthOf (Z.of_nat W) in
  ((0 <=? m) && (m <=? Z.of_nat W)
   && (Z.abs (30 * m - 11 * Z.of_nat W) <=? 15))%bool.

(** The bytes that end a line on the serial link. *)
Definition is_terminator (c : ascii) : Prop :=
  c = UsbLink.CR \/ c = UsbLink.LF.



(* ================================================================== *)
(** ** Machine-integer facts *)
(* ================================================================== *)

Lemma u32_small (z : Z) : 0 <= z < 4294967296 -> u32 z = z.
Proof. intros H. unfold u32. apply Z.mod_small. exact H. Qed.

Lemma u32_range (z : Z) : 0 <= u32 z < 4294967296.
Proof. unfold u32. apply Z.mod_pos_bound. reflexivity. Qed.

Lemma i32_small (z : Z) : - 2147483648 <= z < 2147483648 -> i32 z = z.
Proof.
  intros H. unfold i32.
  change (2 ^ 31) with 2147483648. change (2 ^ 32) with 4294967296.
  rewrite Z.mod_small; lia.
Qed.

(* ================================================================== *)
(** ** The mouth renderer *)
(* ================================================================== *)

Section MouthFacts.
Context {hdr : MouthPatterns} {panel : Panel}.

Lemma clampDy_range (v : Z) :
  0 <= MOUTH_MAX_DY -> - MOUTH_MAX_DY <= clampDy v <= MOUTH_MAX_DY.
Proof.
  intros HM. unfold clampDy.
  destruct (v <? - MOUTH_MAX_DY) eqn:E1.
  - destruct (- MOUTH_MAX_DY >? MOUTH_MAX_DY) eqn:E2; lia.
  - destruct (v >? MOUTH_MAX_DY) eqn:E2; lia.
Qed.

Lemma clampDy_id (v : Z) :
  - MOUTH_MAX_DY <= v <= MOUTH_MAX_DY -> clampDy v = v.
Proof.
  intros H. unfold clampDy.
  destruct (v <? - MOUTH_MAX_DY) eqn:E1; [lia|].
  destruct (v >? MOUTH_MAX_DY) eqn:E2; lia.
Qed.

Lemma segmentLoop_offsets n : forall i x mouthX mouthW step mf s,
  0 <= MOUTH_MAX_DY ->
  In s (segmentLoop n i x mouthX mouthW step mf) ->
  (- MOUTH_MAX_DY <= seg_uy s <= MOUTH_MAX_DY)
  /\ (- MOUTH_MAX_DY <= seg_ly s <= MOUTH_MAX_DY).
Proof.
  induction n as [|n IH]; intros i x mouthX mouthW step mf s HM Hin.
  - contradiction.
  - cbn [segmentLoop] in Hin. destruct Hin as [<-|Hin].
    + cbn. split; apply clampDy_range; exact HM.
    + eapply IH; eauto.
Qed.

Lemma mouthSegments_offsets mouthW mf s :
  0 <= MOUTH_MAX_DY ->
  In s (mouthSegments mouthW mf) ->
  (- MOUTH_MAX_DY <= seg_uy s <= MOUTH_MAX_DY)
  /\ (- MOUTH_MAX_DY <= seg_ly s <= MOUTH_MAX_DY).
Proof.
  intros HM. unfold mouthSegments.
  destruct (mouthW - 2 * ANCHOR_PX <=? 0); [contradiction|].
  apply segmentLoop_offsets. exact HM.
Qed.

(** Rows touched by the strokes of a frame. *)
Lemma drawMouthFrame_rows baseY mouthW mf x y w c :
  0 <= MOUTH_MAX_DY ->
  In (DrawFastHLine x y w c) (drawMouthFrame baseY mouthW mf) ->
  baseY - MOUTH_MAX_DY <= y <= baseY + MOUTH_MAX_DY.
Proof.
  intros HM Hin. unfold drawMouthFrame in Hin.
  apply in_app_or in Hin. destruct Hin as [Hin|Hin].
  - cbn in Hin.
    destruct Hin as [H|[H|[H|[]]]]; try discriminate;
      injection H as _ Hy _ _; lia.
  - apply in_flat_map in Hin. destruct Hin as (s & Hs & Hop).
    destruct (mouthSegments_offsets _ _ _ HM Hs) as [Hu Hl].
    cbn in Hop. destruct Hop as [H|[H|[]]];
      injection H as _ Hy _ _; lia.
Qed.

Lemma wrapTalkIdx_range idx :
  0 < NUM_TALK_FRAMES -> 0 <= wrapTalkIdx idx < NUM_TALK_FRAMES.
Proof.
  intros HN. unfold wrapTalkIdx.
  assert (H1 : - NUM_TALK_FRAMES < Z.rem idx NUM_TALK_FRAMES < NUM_TALK_FRAMES).
  { pose proof (Z.rem_bound_abs idx NUM_TALK_FRAMES). lia. }
  rewrite Z.rem_mod_nonneg by lia.
  apply Z.mod_pos_bound. exact HN.
Qed.

(** The wrapped index is the residue of the index. *)
Lemma wrapTalkIdx_mod idx :
  0 < NUM_TALK_FRAMES -> wrapTalkIdx idx = idx mod NUM_TALK_FRAMES.
Proof.
  intros HN. unfold wrapTalkIdx.
  assert (H1 : - NUM_TALK_FRAMES < Z.rem idx NUM_TALK_FRAMES < NUM_TALK_FRAMES).
  { pose proof (Z.rem_bound_abs idx NUM_TALK_FRAMES). lia. }
  rewrite Z.rem_mod_nonneg by lia.
  pose proof (Z.quot_rem' idx NUM_TALK_FRAMES) as Hq.
  replace (Z.rem idx NUM_TALK_FRAMES + NUM_TALK_FRAMES)
    with (idx + (1 - Z.quot idx NUM_TALK_FRAMES) * NUM_TALK_FRAMES) by lia.
  apply Z_mod_plus_full.
Qed.

End MouthFacts.

(** C3.  With a non-negative [MOUTH_MAX_DY] and a non-empty talk bank:
    every offset computed for a segment lies in
    [-MOUTH_MAX_DY, MOUTH_MAX_DY] whatever the frame holds (and is the
    frame's own value when that is in range), so every stroke of a frame
    lies within [MOUTH_MAX_DY] rows of the baseline; and for every
    integer index, negative or oversized, [drawMouthTalkIdx] reads the
    bank at the wrapped index, which lies in [0, NUM_TALK_FRAMES-1] and
    is the residue of the index. *)
Theorem renderer_clamps_and_wraps {hdr : MouthPatterns} {panel : Panel} :
  0 <= MOUTH_MAX_DY ->
  0 < NUM_TALK_FRAMES ->
  (forall mouthW mf s,
      In s (mouthSegments mouthW mf) ->
      (- MOUTH_MAX_DY <= seg_uy s <= MOUTH_MAX_DY)
      /\ (- MOUTH_MAX_DY <= seg_ly s <= MOUTH_MAX_DY))
  /\ (forall v, - MOUTH_MAX_DY <= v <= MOUTH_MAX_DY -> clampDy v = v)
  /\ (forall baseY mouthW mf x y w c,
         In (DrawFastHLine x y w c) (drawMouthFrame baseY mouthW mf) ->
         baseY - MOUTH_MAX_DY <= y <= baseY + MOUTH_MAX_DY)
  /\ (forall idx w,
         0 <= wrapTalkIdx idx < NUM_TALK_FRAMES
         /\ wrapTalkIdx idx = idx mod NUM_TALK_FRAMES
         /\ drawMouthTalkIdx idx w
            = Some (tt, add_gfx_calls
                          (drawMouthFrame (g_mouthY w) (g_mouthW w)
                                          (TALK_FRAMES (wrapTalkIdx idx))) w)).
Proof.
  intros HM HN. repeat split.
  - eapply mouthSegments_offsets; eauto.
  - eapply mouthSegments_offsets; eauto.
  - eapply mouthSegments_offsets; eauto.
  - eapply mouthSegments_offsets; eauto.
  - apply clampDy_id; assumption.
  - eapply drawMouthFrame_rows; eauto.
  - eapply drawMouthFrame_rows; eauto.
  - apply wrapTalkIdx_range; exact HN.
  - apply wrapTalkIdx_range; exact HN.
  - apply wrapTalkIdx_mod; exact HN.
Qed.

(** The clamp and the wrap on the sample header: index -7 of a bank of
    six frames reads frame 5. *)
Lemma renderer_clamps_and_wraps_witness :
  @wrapTalkIdx sample_patterns (-7) = (-7) mod 6
  /\ 0 <= @wrapTalkIdx sample_patterns (-7) < 6.
Proof.
  pose proof (@renderer_clamps_and_wraps sample_patterns cyd_panel) as H.
  assert (H0 : 0 <= @MOUTH_MAX_DY sample_patterns) by (cbn; lia).
  assert (H1 : 0 < @NUM_TALK_FRAMES sample_patterns) by (cbn; lia).
  destruct (H H0 H1) as (_ & _ & _ & Hw).
  destruct (Hw (-7) (boot (fun _ => 0) (fun _ => 0))) as (Hr & Hm & _).
  split; [exact Hm | exact Hr].
Defined.

Example wrapTalkIdx_samples :
  map (@wrapTalkIdx sample_patterns) [-13; -7; -6; -1; 0; 5; 6; 7; 600]
  = [5; 5; 0; 5; 0; 5; 0; 1; 0].
Proof. reflexivity. Qed.

Section PartitionFacts.
Context {hdr : MouthPatterns} {panel : Panel}.

Lemma segmentLoop_length n : forall i x mouthX mouthW step mf,
  List.length (segmentLoop n i x mouthX mouthW step mf) = n.
Proof.
  induction n as [|n IH]; intros; cbn [segmentLoop List.length].
  - reflexivity.
  - now rewrite IH.
Qed.

(** The boundary of the last iteration is the left edge of the right
    anchor, whatever the rounding gave before. *)
Lemma segmentLoop_last_boundary n : forall i x mouthX mouthW step mf s,
  i + Z.of_nat n = MOUTH_SEGMENTS ->
  lastSegment (segmentLoop n i x mouthX mouthW step mf) = Some s ->
  seg_next s = mouthX + mouthW - ANCHOR_PX.
Proof.
  induction n as [|n IH]; intros i x mouthX mouthW step mf s Hi Hl.
  - discriminate.
  - destruct n as [|n'].
    + cbn in Hl. injection Hl as <-. cbn.
      replace (i =? MOUTH_SEGMENTS - 1) with true; [reflexivity|].
      symmetry. apply Z.eqb_eq. lia.
    + cbn [segmentLoop] in Hl. cbn [lastSegment] in Hl.
      cbn [segmentLoop] in IH.
      eapply (IH (i + 1)); [lia|]. exact Hl.
Qed.

Lemma segmentLoop_tiles n : forall i x mouthX mouthW step mf,
  (0 < n)%nat ->
  i + Z.of_nat n = MOUTH_SEGMENTS ->
  Forall unforced (segmentLoop n i x mouthX mouthW step mf) ->
  sumWidths (segmentLoop n i x mouthX mouthW step mf)
  = mouthX + mouthW - ANCHOR_PX - x
  /\ contiguous x (segmentLoop n i x mouthX mouthW step mf)
  /\ (forall s,
         lastSegment (segmentLoop n i x mouthX mouthW step mf) = Some s ->
         seg_x s + seg_w s = mouthX + mouthW - ANCHOR_PX).
Proof.
  induction n as [|n IH]; intros i x mouthX mouthW step mf Hn Hi Hu.
  - inversion Hn.
  - destruct n as [|n'].
    + (* the final iteration *)
      cbn [segmentLoop] in *.
      assert (E : (i =? MOUTH_SEGMENTS - 1) = true) by (apply Z.eqb_eq; lia).
      rewrite E in *.
      inversion Hu as [|s l Hs _]; subst. unfold unforced in Hs. cbn in Hs.
      assert (Ew : (mouthX + mouthW - ANCHOR_PX - x <? 1) = false)
        by (apply Z.ltb_ge; lia).
      rewrite Ew. unfold sumWidths. cbn.
      repeat split; try lia.
      intros s Hs'. injection Hs' as <-. cbn. lia.
    + (* an iteration that is followed by another one *)
      remember (S n') as m eqn:Hm.
      cbn [segmentLoop] in *.
      assert (E : (i =? MOUTH_SEGMENTS - 1) = false) by (apply Z.eqb_neq; lia).
      rewrite E in *.
      set (nextX := mouthX + ANCHOR_PX
                    + F32.lroundf (F32.mul step (F32.of_int (i + 1)))) in *.
      inversion Hu as [|s l Hs Hrest]; subst s l.
      unfold unforced in Hs. cbn in Hs.
      assert (Ew : (nextX - x <? 1) = false) by (apply Z.ltb_ge; lia).
      rewrite Ew.
      destruct (IH (i + 1) nextX mouthX mouthW step mf) as (Hsum & Hc & Hl);
        [lia | lia | exact Hrest |].
      unfold sumWidths in *. cbn [map fold_right seg_w contiguous seg_x].
      rewrite Hsum.
      repeat split; try lia.
      * replace (x + (nextX - x)) with nextX by lia. exact Hc.
      * intros s Hs'. apply Hl.
        rewrite Hm in Hs' |- *. cbn [segmentLoop lastSegment] in Hs' |- *.
        exact Hs'.
Qed.

Lemma unforcedb_Forall (segs : list Segment) :
  forallb unforcedb segs = true -> Forall unforced segs.
Proof.
  intros H. apply Forall_forall. intros s Hs.
  rewrite forallb_forall in H. specialize (H s Hs).
  unfold unforcedb in H. unfold unforced. lia.
Qed.

(** Which widths are forced does not depend on the frame. *)
Lemma segmentLoop_unforcedb n : forall i x mouthX mouthW step mf mf',
  forallb unforcedb (segmentLoop n i x mouthX mouthW step mf)
  = forallb unforcedb (segmentLoop n i x mouthX mouthW step mf').
Proof.
  induction n as [|n IH]; intros; cbn [segmentLoop forallb].
  - reflexivity.
  - rewrite (IH _ _ _ _ _ mf mf'). reflexivity.
Qed.

Lemma mouthSegments_unforcedb mouthW mf mf' :
  forallb unforcedb (mouthSegments mouthW mf)
  = forallb unforcedb (mouthSegments mouthW mf').
Proof.
  unfold mouthSegments.
  destruct (mouthW - 2 * ANCHOR_PX <=? 0); [reflexivity|].
  apply segmentLoop_unforcedb.
Qed.

End PartitionFacts.

(** On the 320-pixel panel with 2-pixel anchors, for 1 to 32 segments
    and every mouth that fits the panel and whose inner width is at
    least the segment count, no width is forced. *)
Lemma panel_widths_unforced (segs mouthW : Z) (mf : MouthFrame) :
  1 <= segs <= 32 ->
  segs <= mouthW - 4 ->
  mouthW <= 320 ->
  Forall unforced
         (@mouthSegments (sample_with_segments segs) cyd_panel mouthW mf).
Proof.
  intros Hs Hlo Hhi. apply unforcedb_Forall.
  rewrite (@mouthSegments_unforcedb (sample_with_segments segs) cyd_panel
             mouthW mf flat_frame).
  assert (Hall : forallb (fun sg => widths_unforced sg (sg + 4) (317 - sg))
                         (seq 1 32) = true)
    by (vm_compute; reflexivity).
  rewrite forallb_forall in Hall.
  specialize (Hall (Z.to_nat segs)).
  assert (Hin : In (Z.to_nat segs) (seq 1 32)) by (apply in_seq; lia).
  specialize (Hall Hin). unfold widths_unforced in Hall.
  rewrite forallb_forall in Hall.
  specialize (Hall (Z.to_nat mouthW)).
  rewrite !Z2Nat.id in Hall by lia.
  apply Hall. apply in_seq. lia.
Qed.

(** C1 (as amended).  For a mouth wider than its two anchors, with at
    least one segment, and in which no segment width was raised to 1 by
    [if (w < 1) w = 1] (every boundary lies right of the previous one):
    the drawn widths plus the two anchors add up to the mouth width,
    the drawn segments follow one another without gap or overlap from
    the left anchor on, there are [MOUTH_SEGMENTS] of them, and the last
    one ends exactly on the left edge of the right anchor. *)
Theorem partition_exact_when_unforced {hdr : MouthPatterns} {panel : Panel}
        (mouthW : Z) (mf : MouthFrame) :
  0 < mouthW - 2 * ANCHOR_PX ->
  1 <= MOUTH_SEGMENTS ->
  Forall unforced (mouthSegments mouthW mf) ->
  partition_exact mouthW mf
  /\ List.length (mouthSegments mouthW mf) = Z.to_nat MOUTH_SEGMENTS
  /\ lastSegment (mouthSegments mouthW mf) <> None.
Proof.
  intros Hinner Hseg Hu. unfold partition_exact.
  unfold mouthSegments in *.
  assert (E : (mouthW - 2 * ANCHOR_PX <=? 0) = false) by (apply Z.leb_gt; lia).
  rewrite E in *.
  set (step := F32.div (F32.of_int (mouthW - 2 * ANCHOR_PX))
                       (F32.of_int MOUTH_SEGMENTS)) in *.
  destruct (segmentLoop_tiles (Z.to_nat MOUTH_SEGMENTS) 0
              (mouthX_of mouthW + ANCHOR_PX) (mouthX_of mouthW) mouthW step mf)
    as (Hsum & Hc & Hl); [lia | lia | exact Hu |].
  repeat split.
  - rewrite Hsum. lia.
  - exact Hc.
  - exact Hl.
  - apply segmentLoop_length.
  - destruct (Z.to_nat MOUTH_SEGMENTS) as [|k] eqn:Ek; [lia|].
    clear. generalize 0 (mouthX_of mouthW + ANCHOR_PX).
    induction k as [|k IH]; intros i x.
    + cbn. discriminate.
    + cbn [segmentLoop lastSegment]. cbn [segmentLoop] in IH. apply IH.
Qed.

(** The mouth of the 320-pixel panel (117 pixels wide) with the sample
    header: widths 14,14,14,15,14,14,14,14 and two anchors of 2. *)
Lemma partition_exact_when_unforced_witness :
  @partition_exact sample_patterns cyd_panel 117
                   (@TALK_FRAMES sample_patterns 1).
Proof.
  apply (@partition_exact_when_unforced sample_patterns cyd_panel 117
           (@TALK_FRAMES sample_patterns 1)).
  - cbn. lia.
  - cbn. lia.
  - apply unforcedb_Forall. vm_compute. reflexivity.
Defined.

(** C1 (as stated) fails.  Sample header, mouth 5 pixels wide: the inner
    region is 1 pixel wide, the eight segments are all drawn 1 pixel
    wide (seven of them forced), so widths and anchors add up to 12, and
    the last segment ends one pixel inside the right anchor. *)
Lemma partition_inexact_on_narrow_mouth :
  ~ @partition_exact sample_patterns cyd_panel 5
                     (@TALK_FRAMES sample_patterns 1).
Proof.
  unfold partition_exact. intros (Hsum & _).
  vm_compute in Hsum. discriminate Hsum.
Qed.

Example narrow_mouth_widths :
  map seg_w (@mouthSegments sample_patterns cyd_panel 5
                            (@TALK_FRAMES sample_patterns 1))
  = [1; 1; 1; 1; 1; 1; 1; 1]
  /\ map seg_x (@mouthSegments sample_patterns cyd_panel 5
                               (@TALK_FRAMES sample_patterns 1))
     = [159; 159; 159; 159; 160; 160; 160; 160]
  /\ @mouthX_of cyd_panel 5 + 5 - @ANCHOR_PX sample_patterns = 160.
Proof. vm_compute. repeat split. Qed.

(** No inner segment is drawn at all when the mouth is not wider than
    its anchors. *)
Example no_inner_segments :
  @mouthSegments sample_patterns cyd_panel 3 (@TALK_FRAMES sample_patterns 1)
  = [].
Proof. reflexivity. Qed.

(* ================================================================== *)
(** ** Pixels *)
(* ================================================================== *)

Lemma render_app (a b : list GfxOp) (s : Screen) :
  render (a ++ b) s = render b (render a s).
Proof. unfold render. apply fold_left_app. Qed.

(** A pixel shows the colour of the last call that touched it, or what
    it showed before. *)
Lemma render_pixel (ops : list GfxOp) : forall (s : Screen) px py,
  render ops s px py
  = match lastCover ops px py with Some c => c | None => s px py end.
Proof.
  induction ops as [|op r IH]; intros s px py.
  - reflexivity.
  - change (render (op :: r) s) with (render r (paint s op)).
    rewrite IH. cbn [lastCover].
    destruct (lastCover r px py); [reflexivity|].
    unfold paint. destruct (covers op px py); reflexivity.
Qed.

Lemma lastCover_app (a b : list GfxOp) px py :
  lastCover (a ++ b) px py
  = match lastCover b px py with
    | Some c => Some c
    | None => lastCover a px py
    end.
Proof.
  induction a as [|op r IH]; cbn [app lastCover].
  - destruct (lastCover b px py); reflexivity.
  - rewrite IH. destruct (lastCover b px py); reflexivity.
Qed.

Lemma lastCover_untouched (ops : list GfxOp) px py :
  (forall op, In op ops -> covers op px py = None) ->
  lastCover ops px py = None.
Proof.
  induction ops as [|op r IH]; intros H; cbn [lastCover].
  - reflexivity.
  - rewrite IH by (intros o Ho; apply H; right; exact Ho).
    apply H. left. reflexivity.
Qed.

(** Issuing a list of calls twice leaves the pixels of issuing it once. *)
Lemma render_twice (ops : list GfxOp) (s : Screen) px py :
  render (ops ++ ops) s px py = render ops s px py.
Proof.
  rewrite !render_pixel, lastCover_app.
  destruct (lastCover ops px py); reflexivity.
Qed.

(** C9.  [drawMouthFrame] is a function of the baseline, the mouth
    width and the frame alone, and running it twice in succession from
    the same box leaves every pixel of the screen, whatever the screen
    showed before, exactly as running it once does. *)
Theorem drawMouthFrame_idempotent {hdr : MouthPatterns} {panel : Panel} :
  forall (baseY mouthW : Z) (mf : MouthFrame) (s : Screen) (px py : Z),
    render (drawMouthFrame baseY mouthW mf ++ drawMouthFrame baseY mouthW mf)
           s px py
    = render (drawMouthFrame baseY mouthW mf) s px py.
Proof. intros. apply render_twice. Qed.

Section BandFacts.
Context {hdr : MouthPatterns} {panel : Panel}.

(** No call of a frame touches a row above its clear band. *)
Lemma drawMouthFrame_below baseY mouthW mf px py :
  0 <= MOUTH_MAX_DY -> 0 <= MOUTH_CLEAR_PAD ->
  py < baseY - MOUTH_MAX_DY - MOUTH_CLEAR_PAD ->
  lastCover (drawMouthFrame baseY mouthW mf) px py = None.
Proof.
  intros HM HP Hpy. apply lastCover_untouched. intros op Hop.
  destruct op as [| |c|x y w h c|x y w c| | | |]; try reflexivity.
  - (* fillScreen is not among the calls of a frame *)
    exfalso. unfold drawMouthFrame in Hop.
    apply in_app_or in Hop. destruct Hop as [Hop|Hop].
    + cbn in Hop. destruct Hop as [H|[H|[H|[]]]]; discriminate.
    + apply in_flat_map in Hop. destruct Hop as (sg & _ & Hop).
      cbn in Hop. destruct Hop as [H|[H|[]]]; discriminate.
  - (* the clear band *)
    assert (Hy : y = baseY - MOUTH_MAX_DY - MOUTH_CLEAR_PAD).
    { unfold drawMouthFrame in Hop.
      apply in_app_or in Hop. destruct Hop as [Hop|Hop].
      + cbn in Hop. destruct Hop as [H|[H|[H|[]]]]; try discriminate.
        injection H as _ Hy _ _ _. lia.
      + apply in_flat_map in Hop. destruct Hop as (sg & _ & Hop).
        cbn in Hop. destruct Hop as [H|[H|[]]]; discriminate. }
    cbn [covers].
    replace (y <=? py) with false by (symmetry; apply Z.leb_gt; lia).
    rewrite andb_false_r. reflexivity.
  - (* a stroke *)
    pose proof (drawMouthFrame_rows _ _ _ _ _ _ _ HM Hop) as Hy.
    cbn [covers].
    replace (py =? y) with false by (symmetry; apply Z.eqb_neq; lia).
    rewrite andb_false_r. reflexivity.
Qed.

Lemma drawMouthFrame_no_label baseY mouthW mf :
  shownLabels (drawMouthFrame baseY mouthW mf) = [].
Proof.
  unfold drawMouthFrame. cbn [app shownLabels].
  induction (mouthSegments mouthW mf) as [|sg r IH]; [reflexivity|].
  cbn [flat_map segmentStrokes app shownLabels]. exact IH.
Qed.

Lemma shownLabels_app (a b : list GfxOp) :
  shownLabels (a ++ b) = shownLabels a ++ shownLabels b.
Proof.
  induction a as [|op r IH]; [reflexivity|].
  destruct op; cbn [app shownLabels]; rewrite IH; reflexivity.
Qed.

End BandFacts.

(* ================================================================== *)
(** ** The random draws *)
(* ================================================================== *)

Lemma rangeDraw_spec (lo hi raw : Z) :
  0 < hi - lo + 1 <= 2147483648 ->
  rangeDraw lo hi raw = lo + (raw mod 2147483647) mod (hi - lo + 1)
  /\ lo <= rangeDraw lo hi raw <= hi.
Proof.
  intros Hn. unfold rangeDraw.
  pose proof (Z.mod_pos_bound raw 2147483647 eq_refl) as Hr.
  rewrite (u32_small (raw mod 2147483647)) by lia.
  rewrite (u32_small (hi - lo + 1)) by lia.
  pose proof (Z.mod_pos_bound (raw mod 2147483647) (hi - lo + 1)) as Hm.
  rewrite i32_small by lia.
  split; lia.
Qed.

(** Every value of the range is produced by some raw value. *)
Lemma rangeDraw_onto (lo hi v : Z) :
  0 < hi - lo + 1 <= 2147483647 -> lo <= v <= hi ->
  rangeDraw lo hi (v - lo) = v.
Proof.
  intros Hn Hv.
  destruct (rangeDraw_spec lo hi (v - lo)) as [-> _]; [lia|].
  rewrite (Z.mod_small (v - lo) 2147483647) by lia.
  rewrite Z.mod_small by lia. lia.
Qed.

Lemma pick_duration (raw : Z) :
  In (nth (Z.to_nat (rangeDraw 0 3 raw)) DUR_CHOICES_S 0) DUR_CHOICES_S.
Proof.
  destruct (rangeDraw_spec 0 3 raw) as [_ Hr]; [lia|].
  assert (H : rangeDraw 0 3 raw = 0 \/ rangeDraw 0 3 raw = 1
              \/ rangeDraw 0 3 raw = 2 \/ rangeDraw 0 3 raw = 3) by lia.
  destruct H as [-> | [-> | [-> | ->]]]; cbn; auto.
Qed.

Lemma moodOfPick_cases (pick : Z) :
  moodOfPick pick = Smile \/ moodOfPick pick = Frown
  \/ moodOfPick pick = Puzzled \/ moodOfPick pick = Oooh.
Proof.
  unfold moodOfPick.
  destruct (pick =? 0); auto.
  destruct (pick =? 1); auto.
  destruct (pick =? 2); auto.
Qed.

(* ================================================================== *)
(** ** Running the sketch *)
(* ================================================================== *)

Ltac run_sketch :=
  cbv [exec enterSilent enterTalking swapTalkFrame drawMouthMood
       drawMouthTalkIdx debugShow pickDurationMs randRange random nowMs
       gfx modify get ret bind];
  cbn [g_speech g_stateUntilMs g_currMood g_nextMouthSwapMs g_currTalkIdx
       g_mouthY g_mouthW dbg_idx dbg_nextSwitch millis_src millis_calls
       random_src random_calls gfx_calls
       set_g_speech set_g_stateUntilMs set_g_currMood set_g_nextMouthSwapMs
       set_g_currTalkIdx set_mouth_box set_dbg_idx set_dbg_nextSwitch
       tick_millis tick_random add_gfx_calls].

Section Ticks.

Lemma ticks_S k w : ticks (S k) w = tick_random (ticks k w).
Proof. reflexivity. Qed.

Lemma ticks_shift k w : ticks k (tick_random w) = ticks (S k) w.
Proof.
  induction k as [|k IH]; [reflexivity|].
  rewrite ticks_S, IH. reflexivity.
Qed.

Lemma ticks_random_calls k w :
  random_calls (ticks k w) = (k + random_calls w)%nat.
Proof.
  induction k as [|k IH]; [reflexivity|].
  rewrite ticks_S. cbn [tick_random random_calls]. rewrite IH. reflexivity.
Qed.

Lemma ticks_frame k w :
  g_speech (ticks k w) = g_speech w
  /\ g_stateUntilMs (ticks k w) = g_stateUntilMs w
  /\ g_currMood (ticks k w) = g_currMood w
  /\ g_nextMouthSwapMs (ticks k w) = g_nextMouthSwapMs w
  /\ g_currTalkIdx (ticks k w) = g_currTalkIdx w
  /\ g_mouthY (ticks k w) = g_mouthY w
  /\ g_mouthW (ticks k w) = g_mouthW w
  /\ millis_src (ticks k w) = millis_src w
  /\ millis_calls (ticks k w) = millis_calls w
  /\ random_src (ticks k w) = random_src w
  /\ gfx_calls (ticks k w) = gfx_calls w.
Proof.
  induction k as [|k IH]; [repeat split|].
  rewrite ticks_S. cbn. exact IH.
Qed.

Lemma raw_at_tick w k : raw_at (tick_random w) k = raw_at w (S k).
Proof.
  unfold raw_at. cbn [tick_random random_src random_calls].
  f_equal. lia.
Qed.

End Ticks.

Section SwapFacts.
Context {hdr : MouthPatterns} {panel : Panel}.

(** When the [while] loop ends, it ends on a value other than the
    current index, having only consumed random values; and unless it
    ended without drawing, the value is the last draw. *)
Lemma whileSameIdx_sound fuel : forall nextIdx w r w',
  whileSameIdx fuel nextIdx w = Some (r, w') ->
  r <> g_currTalkIdx w
  /\ exists k,
      w' = ticks k w
      /\ ((k = O /\ r = nextIdx)
          \/ (exists j, k = S j
                        /\ r = rangeDraw 0 (NUM_TALK_FRAMES - 1) (raw_at w j))).
Proof.
  induction fuel as [|fuel IH]; intros nextIdx w r w' H.
  - discriminate.
  - cbn [whileSameIdx] in H. unfold bind, get in H.
    destruct (nextIdx =? g_currTalkIdx w) eqn:E.
    + unfold randRange, random, bind, ret in H.
      apply IH in H. destruct H as (Hne & k & Hw & Hk).
      split; [exact Hne|].
      exists (S k). split.
      * rewrite Hw. apply ticks_shift.
      * right. destruct Hk as [[-> ->] | (j & -> & ->)].
        -- exists O. split; [reflexivity|]. reflexivity.
        -- exists (S j). split; [reflexivity|].
           rewrite raw_at_tick. reflexivity.
    + unfold ret in H. injection H as <- <-.
      apply Z.eqb_neq in E. split; [exact E|].
      exists O. split; [reflexivity|]. left. split; reflexivity.
Qed.

(** The loop ends as soon as a draw differs from the current index. *)
Lemma whileSameIdx_ends k : forall w nextIdx,
  rangeDraw 0 (NUM_TALK_FRAMES - 1) (raw_at w k) <> g_currTalkIdx w ->
  exists fuel r w', whileSameIdx fuel nextIdx w = Some (r, w').
Proof.
  induction k as [|k IH]; intros w nextIdx Hk.
  - destruct (nextIdx =? g_currTalkIdx w) eqn:E.
    + exists 2%nat. cbn [whileSameIdx]. unfold bind, get. rewrite E.
      unfold randRange, random, bind, ret, get.
      cbn [tick_random g_currTalkIdx].
      change (random_src w (random_calls w)) with (raw_at w 0).
      fold (rangeDraw 0 (NUM_TALK_FRAMES - 1) (raw_at w 0)).
      apply Z.eqb_neq in Hk. rewrite Hk. eauto.
    + exists 1%nat. cbn [whileSameIdx]. unfold bind, get. rewrite E.
      unfold ret. eauto.
  - destruct (nextIdx =? g_currTalkIdx w) eqn:E.
    + destruct (IH (tick_random w)
                   (rangeDraw 0 (NUM_TALK_FRAMES - 1) (raw_at w 0)))
        as (fuel & r & w' & H).
      { rewrite raw_at_tick. exact Hk. }
      exists (S fuel), r, w'. cbn [whileSameIdx]. unfold bind, get.
      rewrite E. unfold randRange, random, bind, ret. exact H.
    + exists 1%nat. cbn [whileSameIdx]. unfold bind, get. rewrite E.
      unfold ret. eauto.
Qed.

(** With a single talk frame the loop has no way out. *)
Lemma whileSameIdx_single fuel : forall w,
  NUM_TALK_FRAMES = 1 -> g_currTalkIdx w = 0 ->
  whileSameIdx fuel (g_currTalkIdx w) w = None.
Proof.
  induction fuel as [|fuel IH]; intros w HN Hc; [reflexivity|].
  cbn [whileSameIdx]. unfold bind, get. rewrite Z.eqb_refl.
  unfold randRange, random, bind, ret.
  change (random_src w (random_calls w)) with (raw_at w 0).
  fold (rangeDraw 0 (NUM_TALK_FRAMES - 1) (raw_at w 0)).
  destruct (rangeDraw_spec 0 (NUM_TALK_FRAMES - 1) (raw_at w 0)) as [_ Hr];
    [rewrite HN; lia|].
  replace (rangeDraw 0 (NUM_TALK_FRAMES - 1) (raw_at w 0)) with 0 by lia.
  rewrite <- Hc at 1.
  change (g_currTalkIdx w) with (g_currTalkIdx (tick_random w)).
  apply IH; [exact HN | exact Hc].
Qed.

End SwapFacts.

Section LoopFacts.
Context {hdr : MouthPatterns} {panel : Panel}.

(** What a finished swap leaves behind. *)
Lemma swapTalkFrame_sound fuel tNow w w' :
  exec (swapTalkFrame fuel tNow) w = Some w' ->
  exists j,
    g_currTalkIdx w' = rangeDraw 0 (NUM_TALK_FRAMES - 1) (raw_at w j)
    /\ g_currTalkIdx w' <> g_currTalkIdx w
    /\ g_nextMouthSwapMs w'
       = u32 (tNow + TALK_SWAP_MS_BASE
              + rangeDraw (- TALK_SWAP_JITTER) TALK_SWAP_JITTER
                          (raw_at w (S j)))
    /\ random_calls w' = (S (S j) + random_calls w)%nat
    /\ gfx_calls w'
       = ((gfx_calls w ++ [StartWrite])
            ++ drawMouthFrame (g_mouthY w) (g_mouthW w)
                 (TALK_FRAMES (wrapTalkIdx (g_currTalkIdx w'))))
           ++ [EndWrite]
    /\ g_speech w' = g_speech w
    /\ g_stateUntilMs w' = g_stateUntilMs w
    /\ g_currMood w' = g_currMood w.
Proof.
  unfold exec, swapTalkFrame, bind, get. intros H.
  destruct (whileSameIdx fuel (g_currTalkIdx w) w) as [[r w1]|] eqn:E;
    [|discriminate].
  apply whileSameIdx_sound in E. destruct E as (Hne & k & Hw1 & Hk).
  destruct Hk as [[_ Hr] | (j & Hkj & Hr)]; [congruence|].
  subst k. exists j.
  revert H. run_sketch. intros H. injection H as <-.
  cbn [g_speech g_stateUntilMs g_currMood g_nextMouthSwapMs g_currTalkIdx
       g_mouthY g_mouthW millis_src millis_calls random_src random_calls
       gfx_calls set_g_nextMouthSwapMs set_g_currTalkIdx tick_random
       add_gfx_calls].
  destruct (ticks_frame (S j) w)
    as (Hs & Hd & Hmo & _ & _ & Hy & Hwd & _ & _ & Hrs & Hg).
  rewrite Hw1, Hy, Hwd, Hg, Hs, Hd, Hmo, Hrs, ticks_random_calls.
  repeat split; try assumption; try reflexivity.
Qed.

(** A swap comes to an end as soon as some draw differs from the
    index shown. *)
Lemma swapTalkFrame_ends k tNow w :
  rangeDraw 0 (NUM_TALK_FRAMES - 1) (raw_at w k) <> g_currTalkIdx w ->
  exists fuel w', exec (swapTalkFrame fuel tNow) w = Some w'.
Proof.
  intros Hk.
  destruct (whileSameIdx_ends k w (g_currTalkIdx w) Hk) as (fuel & r & w1 & E).
  exists fuel. unfold exec, swapTalkFrame, bind, get. rewrite E.
  run_sketch. eauto.
Qed.

(** A pass that starts in [Talking] before the end of the phase, with
    the swap due, is a swap. *)
Lemma loop_swap_pass fuel w :
  g_speech w = Talking ->
  clock_at w 0 < g_stateUntilMs w ->
  g_nextMouthSwapMs w <= clock_at w 0 ->
  loop MODE_NORMAL fuel w
  = swapTalkFrame fuel (clock_at w 0) (tick_millis w).
Proof.
  intros Hs Hd Hsw. unfold clock_at in *. cbn [Nat.add] in *.
  unfold loop, bind, nowMs, get, ret.
  cbn [g_stateUntilMs g_speech g_nextMouthSwapMs tick_millis].
  replace (g_stateUntilMs w <=? u32 (millis_src w (millis_calls w)))
    with false by (symmetry; apply Z.leb_gt; lia).
  cbn [g_stateUntilMs g_speech g_nextMouthSwapMs tick_millis].
  rewrite Hs.
  replace (g_nextMouthSwapMs w <=? u32 (millis_src w (millis_calls w)))
    with true by (symmetry; apply Z.leb_le; lia).
  reflexivity.
Qed.

End LoopFacts.

(** C2.  In a pass of [loop()] that starts in [Talking], before the end
    of the phase and with the swap due, with between 2 and INT_MAX talk
    frames: whenever the pass finishes, the index it leaves differs from
    the index [i] shown before and lies in [0, NUM_TALK_FRAMES-1]; the
    pass does finish as soon as one of the coming draws differs from
    [i]; and such a draw exists.  The same holds of the swap itself,
    wherever it is run from. *)
Theorem talk_swap_never_repeats {hdr : MouthPatterns} {panel : Panel}
        (w : World) :
  2 <= NUM_TALK_FRAMES <= 2147483647 ->
  g_speech w = Talking ->
  clock_at w 0 < g_stateUntilMs w ->
  g_nextMouthSwapMs w <= clock_at w 0 ->
  (forall fuel w',
      exec (loop MODE_NORMAL fuel) w = Some w' ->
      g_currTalkIdx w' <> g_currTalkIdx w
      /\ 0 <= g_currTalkIdx w' < NUM_TALK_FRAMES)
  /\ (forall k,
         rangeDraw 0 (NUM_TALK_FRAMES - 1) (raw_at w k) <> g_currTalkIdx w ->
         exists fuel w', exec (loop MODE_NORMAL fuel) w = Some w')
  /\ (exists raw, rangeDraw 0 (NUM_TALK_FRAMES - 1) raw <> g_currTalkIdx w)
  /\ (forall fuel tNow w0 w',
         exec (swapTalkFrame fuel tNow) w0 = Some w' ->
         g_currTalkIdx w' <> g_currTalkIdx w0
         /\ 0 <= g_currTalkIdx w' < NUM_TALK_FRAMES).
Proof.
  intros HN Hs Hd Hsw.
  assert (Hswap : forall fuel tNow w0 w',
             exec (swapTalkFrame fuel tNow) w0 = Some w' ->
             g_currTalkIdx w' <> g_currTalkIdx w0
             /\ 0 <= g_currTalkIdx w' < NUM_TALK_FRAMES).
  { intros fuel tNow w0 w' H. apply swapTalkFrame_sound in H.
    destruct H as (j & Hv & Hne & _). split; [exact Hne|].
    rewrite Hv.
    destruct (rangeDraw_spec 0 (NUM_TALK_FRAMES - 1) (raw_at w0 j))
      as [_ Hr]; lia. }
  split; [|split; [|split; [|exact Hswap]]].
  2: { intros k Hk. unfold exec.
       destruct (swapTalkFrame_ends k (clock_at w 0) (tick_millis w) Hk)
         as (fuel & w' & E).
       exists fuel, w'. rewrite loop_swap_pass by assumption. exact E. }
  2: { destruct (Z.eq_dec (g_currTalkIdx w) 0) as [E|E].
       - exists (1 - 0). rewrite rangeDraw_onto; lia.
       - exists (0 - 0). rewrite rangeDraw_onto; lia. }
  intros fuel w' H. unfold exec in H.
  rewrite loop_swap_pass in H by assumption.
  exact (Hswap fuel (clock_at w 0) (tick_millis w) w' H).
Qed.

(** The sample talking world: the first draw repeats frame 2, the
    second gives frame 3, and the pass ends there. *)
Lemma talk_swap_never_repeats_witness :
  exists fuel w',
    exec (@loop sample_patterns cyd_panel MODE_NORMAL fuel) sample_talking
    = Some w'.
Proof.
  refine (proj1 (proj2 (@talk_swap_never_repeats sample_patterns cyd_panel
                          sample_talking _ _ _ _)) 1%nat _).
  - cbn. lia.
  - reflexivity.
  - vm_compute. reflexivity.
  - vm_compute. discriminate.
  - vm_compute. discriminate.
Defined.

Example talk_swap_sample :
  option_map g_currTalkIdx
    (exec (@loop sample_patterns cyd_panel MODE_NORMAL 3) sample_talking)
  = Some 3
  /\ option_map g_nextMouthSwapMs
       (exec (@loop sample_patterns cyd_panel MODE_NORMAL 3) sample_talking)
     = Some (1000 + 160 + (-40 + 16)).
Proof. vm_compute. split; reflexivity. Qed.

Ltac world_fields :=
  cbn [g_speech g_stateUntilMs g_currMood g_nextMouthSwapMs g_currTalkIdx
       g_mouthY g_mouthW dbg_idx dbg_nextSwitch millis_src millis_calls
       random_src random_calls gfx_calls
       set_g_speech set_g_stateUntilMs set_g_currMood set_g_nextMouthSwapMs
       set_g_currTalkIdx set_mouth_box set_dbg_idx set_dbg_nextSwitch
       tick_millis tick_random add_gfx_calls].

Section TransitionFacts.
Context {hdr : MouthPatterns} {panel : Panel}.

(** [enterSilent] always returns; what it leaves behind. *)
Lemma enterSilent_post mode w :
  exists w',
    enterSilent mode w = Some (tt, w')
    /\ g_speech w' = Silent
    /\ g_stateUntilMs w'
       = u32 (clock_at w 0
              + nth (Z.to_nat (rangeDraw 0 3 (raw_at w 0))) DUR_CHOICES_S 0
                * 1000)
    /\ g_currMood w' = moodOfPick (rangeDraw 0 3 (raw_at w 1))
    /\ gfx_calls w'
       = gfx_calls w
         ++ [StartWrite] ++ clearMoodLabel
         ++ drawMouthFrame (g_mouthY w) (g_mouthW w)
                           (moodToFrame (g_currMood w'))
         ++ drawMoodLabel mode (silentLabel (g_currMood w'))
         ++ [EndWrite]
    /\ random_calls w' = (2 + random_calls w)%nat
    /\ millis_calls w' = (1 + millis_calls w)%nat
    /\ g_currTalkIdx w' = g_currTalkIdx w
    /\ g_nextMouthSwapMs w' = g_nextMouthSwapMs w
    /\ g_mouthY w' = g_mouthY w
    /\ g_mouthW w' = g_mouthW w.
Proof.
  eexists. split.
  { run_sketch. reflexivity. }
  world_fields. repeat split.
  rewrite <- !app_assoc. reflexivity.
Qed.

(** [enterTalking] always returns; what it leaves behind. *)
Lemma enterTalking_post w :
  exists w',
    enterTalking w = Some (tt, w')
    /\ g_speech w' = Talking
    /\ g_stateUntilMs w'
       = u32 (clock_at w 0
              + nth (Z.to_nat (rangeDraw 0 3 (raw_at w 0))) DUR_CHOICES_S 0
                * 1000)
    /\ g_currTalkIdx w' = rangeDraw 0 (NUM_TALK_FRAMES - 1) (raw_at w 1)
    /\ g_nextMouthSwapMs w'
       = u32 (clock_at w 1 + TALK_SWAP_MS_BASE
              + rangeDraw (- TALK_SWAP_JITTER) TALK_SWAP_JITTER (raw_at w 2))
    /\ gfx_calls w'
       = gfx_calls w
         ++ [StartWrite] ++ clearMoodLabel
         ++ drawMouthFrame (g_mouthY w) (g_mouthW w)
              (TALK_FRAMES (wrapTalkIdx (g_currTalkIdx w')))
         ++ [EndWrite]
    /\ random_calls w' = (3 + random_calls w)%nat
    /\ millis_calls w' = (2 + millis_calls w)%nat
    /\ g_currMood w' = g_currMood w
    /\ g_mouthY w' = g_mouthY w
    /\ g_mouthW w' = g_mouthW w.
Proof.
  eexists. split.
  { run_sketch. reflexivity. }
  world_fields. repeat split.
  rewrite <- !app_assoc. reflexivity.
Qed.

(** A pass that starts in [Talking] at or after the end of the phase
    is [enterSilent], and nothing more. *)
Lemma loop_to_silent fuel w :
  g_speech w = Talking ->
  g_stateUntilMs w <= clock_at w 0 ->
  loop MODE_NORMAL fuel w = enterSilent MODE_NORMAL (tick_millis w).
Proof.
  intros Hs Hd. unfold clock_at in Hd. cbn [Nat.add] in Hd.
  destruct (enterSilent_post MODE_NORMAL (tick_millis w))
    as (wS & E & HS & _).
  unfold loop, bind at 1 2 3, nowMs, get.
  world_fields.
  replace (g_stateUntilMs w <=? u32 (millis_src w (millis_calls w)))
    with true by (symmetry; apply Z.leb_le; lia).
  rewrite Hs. unfold bind at 1. rewrite E. unfold bind, get.
  rewrite HS. reflexivity.
Qed.

(** A pass that starts in [Silent] at or after the end of the phase is
    [enterTalking], followed by a swap only if the swap just scheduled
    is already due at the time read at the start of the pass. *)
Lemma loop_to_talking fuel w wT :
  g_speech w = Silent ->
  g_stateUntilMs w <= clock_at w 0 ->
  enterTalking (tick_millis w) = Some (tt, wT) ->
  loop MODE_NORMAL fuel w
  = if g_nextMouthSwapMs wT <=? clock_at w 0
    then swapTalkFrame fuel (clock_at w 0) wT
    else Some (tt, wT).
Proof.
  intros Hs Hd E. unfold clock_at in *. cbn [Nat.add] in *.
  destruct (enterTalking_post (tick_millis w)) as (wT' & E' & HT & _).
  assert (wT' = wT) by congruence. subst wT'.
  unfold loop, bind at 1 2 3, nowMs, get.
  world_fields.
  replace (g_stateUntilMs w <=? u32 (millis_src w (millis_calls w)))
    with true by (symmetry; apply Z.leb_le; lia).
  rewrite Hs. unfold bind at 1. rewrite E. rewrite HT.
  destruct (g_nextMouthSwapMs wT <=? u32 (millis_src w (millis_calls w)));
    reflexivity.
Qed.

End TransitionFacts.

Section HoldFacts.
Context {hdr : MouthPatterns} {panel : Panel}.

(** A pass before the end of the phase: a swap if one is due while
    talking, nothing otherwise. *)
Lemma loop_no_transition fuel w :
  clock_at w 0 < g_stateUntilMs w ->
  loop MODE_NORMAL fuel w
  = match g_speech w with
    | Talking =>
      if g_nextMouthSwapMs w <=? clock_at w 0
      then swapTalkFrame fuel (clock_at w 0) (tick_millis w)
      else Some (tt, tick_millis w)
    | Silent => Some (tt, tick_millis w)
    end.
Proof.
  intros Hd. unfold clock_at in *. cbn [Nat.add] in *.
  unfold loop, bind, nowMs, get, ret.
  world_fields.
  replace (g_stateUntilMs w <=? u32 (millis_src w (millis_calls w)))
    with false by (symmetry; apply Z.leb_gt; lia).
  world_fields.
  destruct (g_speech w); [reflexivity|].
  destruct (g_nextMouthSwapMs w <=? u32 (millis_src w (millis_calls w)));
    reflexivity.
Qed.

Lemma jitter_range (raw : Z) :
  - 40 <= rangeDraw (- TALK_SWAP_JITTER) TALK_SWAP_JITTER raw <= 40.
Proof.
  destruct (rangeDraw_spec (- TALK_SWAP_JITTER) TALK_SWAP_JITTER raw)
    as [_ H]; unfold TALK_SWAP_JITTER in *; lia.
Qed.

Lemma clock_at_range w k : 0 <= clock_at w k < 4294967296.
Proof. unfold clock_at. apply u32_range. Qed.

End HoldFacts.

(** C4.  The dwell table is {5, 10, 15, 20} seconds.  [enterSilent] and
    [enterTalking] always return, and each sets [g_stateUntilMs] to the
    32-bit sum of the time just read and 1000 times an entry [d] of the
    table, which is the plain sum unless the millisecond counter wraps.
    In [loop()]: a pass at or after the deadline flips the state and
    sets such a deadline from the time read inside the transition; the
    flip to [Silent] always completes, the flip to [Talking] does when
    the clock does not run backwards or wrap; a pass before the
    deadline leaves state and deadline alone. *)
Theorem dwell_in_allowed_set {hdr : MouthPatterns} {panel : Panel}
        (mode : BuildMode) (w : World) :
  DUR_CHOICES_S = [5; 10; 15; 20]
  /\ (exists d wS,
         In d DUR_CHOICES_S
         /\ enterSilent mode w = Some (tt, wS)
         /\ g_speech wS = Silent
         /\ g_stateUntilMs wS = u32 (clock_at w 0 + d * 1000))
  /\ (exists d wT,
         In d DUR_CHOICES_S
         /\ enterTalking w = Some (tt, wT)
         /\ g_speech wT = Talking
         /\ g_stateUntilMs wT = u32 (clock_at w 0 + d * 1000))
  /\ (forall d k,
         In d DUR_CHOICES_S ->
         clock_at w k + 20000 < 4294967296 ->
         u32 (clock_at w k + d * 1000) = clock_at w k + d * 1000)
  /\ (forall fuel w',
         g_stateUntilMs w <= clock_at w 0 ->
         exec (loop MODE_NORMAL fuel) w = Some w' ->
         exists d,
           In d DUR_CHOICES_S
           /\ g_stateUntilMs w' = u32 (clock_at w 1 + d * 1000)
           /\ g_speech w'
              = match g_speech w with Silent => Talking | Talking => Silent end)
  /\ (forall fuel,
         g_speech w = Talking ->
         g_stateUntilMs w <= clock_at w 0 ->
         exists w', exec (loop MODE_NORMAL fuel) w = Some w')
  /\ (forall fuel,
         g_speech w = Silent ->
         g_stateUntilMs w <= clock_at w 0 ->
         clock_at w 0 <= clock_at w 2 ->
         clock_at w 2 + 200 < 4294967296 ->
         exists w', exec (loop MODE_NORMAL fuel) w = Some w')
  /\ (forall fuel w',
         clock_at w 0 < g_stateUntilMs w ->
         exec (loop MODE_NORMAL fuel) w = Some w' ->
         g_speech w' = g_speech w /\ g_stateUntilMs w' = g_stateUntilMs w).
Proof.
  split; [reflexivity|].
  split.
  { destruct (enterSilent_post mode w) as (wS & E & HS & Hd & _).
    eexists _, wS. split; [apply (pick_duration (raw_at w 0))|].
    repeat split; assumption. }
  split.
  { destruct (enterTalking_post w) as (wT & E & HT & Hd & _).
    eexists _, wT. split; [apply (pick_duration (raw_at w 0))|].
    repeat split; assumption. }
  split.
  { intros d k Hin Hk. pose proof (clock_at_range w k).
    apply u32_small.
    cbn in Hin. destruct Hin as [<-|[<-|[<-|[<-|[]]]]]; lia. }
  split.
  { intros fuel w' Hdue H. unfold exec in H.
    destruct (g_speech w) eqn:Hs.
    - destruct (enterTalking_post (tick_millis w))
        as (wT & E & HT & Hd & _).
      rewrite (loop_to_talking fuel w wT Hs Hdue E) in H.
      exists (nth (Z.to_nat (rangeDraw 0 3 (raw_at (tick_millis w) 0)))
                  DUR_CHOICES_S 0).
      split; [apply pick_duration|].
      destruct (g_nextMouthSwapMs wT <=? clock_at w 0).
      + apply swapTalkFrame_sound in H.
        destruct H as (j & _ & _ & _ & _ & _ & Hsp & Hst & _).
        rewrite Hsp, Hst, HT, Hd. split; reflexivity.
      + injection H as <-. rewrite HT, Hd. split; reflexivity.
    - destruct (enterSilent_post MODE_NORMAL (tick_millis w))
        as (wS & E & HS & Hd & _).
      rewrite (loop_to_silent fuel w Hs Hdue), E in H. injection H as <-.
      exists (nth (Z.to_nat (rangeDraw 0 3 (raw_at (tick_millis w) 0)))
                  DUR_CHOICES_S 0).
      split; [apply pick_duration|].
      rewrite HS, Hd. split; reflexivity. }
  split.
  { intros fuel Hs Hdue.
    destruct (enterSilent_post MODE_NORMAL (tick_millis w)) as (wS & E & _).
    exists wS. unfold exec. rewrite (loop_to_silent fuel w Hs Hdue), E.
    reflexivity. }
  split.
  { intros fuel Hs Hdue Hmono Hwrap.
    destruct (enterTalking_post (tick_millis w))
      as (wT & E & _ & _ & _ & Hsw & _).
    exists wT. unfold exec. rewrite (loop_to_talking fuel w wT Hs Hdue E).
    change (clock_at (tick_millis w) 1) with (clock_at w 2) in Hsw.
    pose proof (jitter_range (raw_at (tick_millis w) 2)) as Hj.
    pose proof (clock_at_range w 0). pose proof (clock_at_range w 2).
    rewrite u32_small in Hsw by (unfold TALK_SWAP_MS_BASE; lia).
    replace (g_nextMouthSwapMs wT <=? clock_at w 0) with false;
      [reflexivity|].
    symmetry. apply Z.leb_gt. unfold TALK_SWAP_MS_BASE in Hsw. lia. }
  intros fuel w' Hd H. unfold exec in H.
  rewrite (loop_no_transition fuel w Hd) in H.
  destruct (g_speech w) eqn:Hs.
  - injection H as <-. split; [exact Hs | reflexivity].
  - destruct (g_nextMouthSwapMs w <=? clock_at w 0).
    + apply swapTalkFrame_sound in H.
      destruct H as (j & _ & _ & _ & _ & _ & Hsp & Hst & _).
      rewrite Hsp, Hst. split; [exact Hs | reflexivity].
    + injection H as <-. split; [exact Hs | reflexivity].
Qed.

(** The sample talking world once its phase is over (the clock is read
    as 9000 and 9020): the pass enters [Silent] with a deadline 15 s
    after the time read inside the transition. *)
Lemma dwell_in_allowed_set_witness :
  exists d,
    In d DUR_CHOICES_S
    /\ option_map g_stateUntilMs
         (exec (@loop sample_patterns cyd_panel MODE_NORMAL 1)
               (set_g_stateUntilMs 1000 sample_talking))
       = Some (1020 + d * 1000).
Proof.
  pose proof (@dwell_in_allowed_set sample_patterns cyd_panel MODE_NORMAL
                (set_g_stateUntilMs 1000 sample_talking)) as H.
  destruct H as (_ & _ & _ & Hplain & Hflip & Hdone & _).
  destruct (Hdone 1%nat eq_refl) as (w' & E); [vm_compute; discriminate|].
  destruct (Hflip 1%nat w') as (d & Hin & Hdl & _);
    [vm_compute; discriminate | exact E |].
  exists d. split; [exact Hin|].
  rewrite E. cbn [option_map]. rewrite Hdl.
  rewrite (Hplain d 1%nat Hin) by (vm_compute; reflexivity).
  reflexivity.
Defined.

(** C5.  The base delay is 160 ms and the jitter bound 40 ms.
    [enterTalking] schedules the first swap at the 32-bit sum of the
    time it reads, 160 and a jitter that [randRange(-40, 40)] makes of
    the third raw value it consumes; a finished swap, by itself or as a
    pass of [loop()], reschedules at the pass time plus 160 plus a
    jitter made of the raw value consumed last, after the ones that
    chose the frame.  Every jitter lies in [-40, 40], every value of
    that range is the jitter of some raw value, and the delay lies in
    [120, 200] ms unless the millisecond counter wraps. *)
Theorem talk_swap_schedule {hdr : MouthPatterns} {panel : Panel}
        (w : World) :
  TALK_SWAP_MS_BASE = 160 /\ TALK_SWAP_JITTER = 40
  /\ (exists wT jit,
         enterTalking w = Some (tt, wT)
         /\ jit = rangeDraw (-40) 40 (raw_at w 2)
         /\ jit = -40 + (raw_at w 2 mod 2147483647) mod 81
         /\ -40 <= jit <= 40
         /\ random_calls wT = (3 + random_calls w)%nat
         /\ g_nextMouthSwapMs wT = u32 (clock_at w 1 + 160 + jit)
         /\ (clock_at w 1 + 200 < 4294967296 ->
             g_nextMouthSwapMs wT = clock_at w 1 + 160 + jit
             /\ 120 <= g_nextMouthSwapMs wT - clock_at w 1 <= 200))
  /\ (forall fuel tNow w',
         exec (swapTalkFrame fuel tNow) w = Some w' ->
         exists j jit,
           jit = rangeDraw (-40) 40 (raw_at w (S j))
           /\ jit = -40 + (raw_at w (S j) mod 2147483647) mod 81
           /\ -40 <= jit <= 40
           /\ random_calls w' = (S (S j) + random_calls w)%nat
           /\ g_nextMouthSwapMs w' = u32 (tNow + 160 + jit)
           /\ (0 <= tNow -> tNow + 200 < 4294967296 ->
               120 <= g_nextMouthSwapMs w' - tNow <= 200))
  /\ (forall fuel w',
         g_speech w = Talking ->
         clock_at w 0 < g_stateUntilMs w ->
         g_nextMouthSwapMs w <= clock_at w 0 ->
         exec (loop MODE_NORMAL fuel) w = Some w' ->
         exists jit,
           -40 <= jit <= 40
           /\ (random_calls w < random_calls w')%nat
           /\ jit = rangeDraw (-40) 40 (random_src w (pred (random_calls w')))
           /\ g_nextMouthSwapMs w' = u32 (clock_at w 0 + 160 + jit)
           /\ (clock_at w 0 + 200 < 4294967296 ->
               120 <= g_nextMouthSwapMs w' - clock_at w 0 <= 200))
  /\ (forall v, -40 <= v <= 40 -> rangeDraw (-40) 40 (v + 40) = v).
Proof.
  split; [reflexivity|]. split; [reflexivity|].
  split.
  { destruct (enterTalking_post w)
      as (wT & E & _ & _ & _ & Hsw & _ & Hrc & _).
    exists wT, (rangeDraw (-40) 40 (raw_at w 2)).
    pose proof (jitter_range (raw_at w 2)) as Hj.
    change (- TALK_SWAP_JITTER) with (-40) in *.
    change TALK_SWAP_JITTER with 40 in *.
    change TALK_SWAP_MS_BASE with 160 in *.
    repeat split; try assumption; try lia.
    - destruct (rangeDraw_spec (-40) 40 (raw_at w 2)) as [Hv _]; [lia|].
      exact Hv.
    - rewrite Hsw. apply u32_small.
      pose proof (clock_at_range w 1). lia.
    - rewrite Hsw. rewrite u32_small by (pose proof (clock_at_range w 1); lia).
      lia.
    - rewrite Hsw. rewrite u32_small by (pose proof (clock_at_range w 1); lia).
      lia. }
  split.
  { intros fuel tNow w' H. apply swapTalkFrame_sound in H.
    destruct H as (j & _ & _ & Hsw & Hrc & _).
    exists j, (rangeDraw (-40) 40 (raw_at w (S j))).
    pose proof (jitter_range (raw_at w (S j))) as Hj.
    change (- TALK_SWAP_JITTER) with (-40) in *.
    change TALK_SWAP_JITTER with 40 in *.
    change TALK_SWAP_MS_BASE with 160 in *.
    repeat split; try assumption; try lia.
    - destruct (rangeDraw_spec (-40) 40 (raw_at w (S j))) as [Hv _]; [lia|].
      exact Hv.
    - rewrite Hsw. rewrite u32_small by lia. lia.
    - rewrite Hsw. rewrite u32_small by lia. lia. }
  split.
  { intros fuel w' Hs Hd Hdue H. unfold exec in H.
    rewrite loop_swap_pass in H by assumption.
    apply swapTalkFrame_sound in H.
    destruct H as (j & _ & _ & Hsw & Hrc & _).
    exists (rangeDraw (-40) 40 (raw_at (tick_millis w) (S j))).
    pose proof (jitter_range (raw_at (tick_millis w) (S j))) as Hj.
    change (- TALK_SWAP_JITTER) with (-40) in *.
    change TALK_SWAP_JITTER with 40 in *.
    change TALK_SWAP_MS_BASE with 160 in *.
    cbn [tick_millis random_calls] in Hrc.
    pose proof (clock_at_range w 0).
    repeat split; try assumption; try lia.
    - rewrite Hrc. unfold raw_at. cbn [tick_millis random_src random_calls pred Nat.add].
      reflexivity.
    - rewrite Hsw. rewrite u32_small by lia. lia.
    - rewrite Hsw. rewrite u32_small by lia. lia. }
  intros v Hv. replace (v + 40) with (v - (-40)) by lia.
  apply rangeDraw_onto; lia.
Qed.

(** The sample talking world: the pass at 1000 ms swaps to frame 3 and
    schedules the next swap 136 ms later (jitter -24). *)
Lemma talk_swap_schedule_witness :
  exists w' jit,
    exec (@loop sample_patterns cyd_panel MODE_NORMAL 3) sample_talking
    = Some w'
    /\ -40 <= jit <= 40
    /\ g_nextMouthSwapMs w' = u32 (1000 + 160 + jit).
Proof.
  destruct (exec (@loop sample_patterns cyd_panel MODE_NORMAL 3)
                 sample_talking) as [w'|] eqn:E;
    [|vm_compute in E; discriminate E].
  pose proof (@talk_swap_schedule sample_patterns cyd_panel sample_talking)
    as H.
  destruct H as (_ & _ & _ & _ & Hpass & _).
  destruct (Hpass 3%nat w') as (jit & Hj & _ & _ & Hsw & _).
  - reflexivity.
  - vm_compute. reflexivity.
  - vm_compute. discriminate.
  - exact E.
  - exists w', jit. split; [reflexivity|]. split; [exact Hj | exact Hsw].
Defined.

(** C6.  [enterSilent] always returns, in state [Silent], with the mood
    that the table Smile, Frown, Puzzled, Oooh gives for
    [pick = randRange(0, 3)], the value made of the second raw value it
    consumes: the four picks give the four moods, one each, so the mood
    is one of the four and never Neutral, and each of the four is the
    choice for some raw value.  In a normal build, [setup()] from the
    power-on state ends in [Silent] with such a mood and a deadline one
    of 5, 10, 15, 20 s after the time it read. *)
Theorem silent_mood_choice {hdr : MouthPatterns} {panel : Panel}
        (mode : BuildMode) (w : World) :
  (exists wS pick,
      enterSilent mode w = Some (tt, wS)
      /\ g_speech wS = Silent
      /\ pick = rangeDraw 0 3 (raw_at w 1)
      /\ pick = (raw_at w 1 mod 2147483647) mod 4
      /\ g_currMood wS = moodOfPick pick
      /\ In (g_currMood wS) [Smile; Frown; Puzzled; Oooh]
      /\ g_currMood wS <> Neutral)
  /\ map moodOfPick [0; 1; 2; 3] = [Smile; Frown; Puzzled; Oooh]
  /\ (forall v, 0 <= v <= 3 -> rangeDraw 0 3 v = v)
  /\ (forall clock rnd eyes_oldCy eyes_cy eyes_rWhite,
         exists w0 d,
           setup MODE_NORMAL eyes_oldCy eyes_cy eyes_rWhite (boot clock rnd)
           = Some (tt, w0)
           /\ g_speech w0 = Silent
           /\ In (g_currMood w0) [Smile; Frown; Puzzled; Oooh]
           /\ g_currMood w0 <> Neutral
           /\ In d DUR_CHOICES_S
           /\ g_stateUntilMs w0 = u32 (u32 (clock O) + d * 1000)).
Proof.
  assert (Hmood : forall p, In (moodOfPick p) [Smile; Frown; Puzzled; Oooh]
                            /\ moodOfPick p <> Neutral).
  { intros p. destruct (moodOfPick_cases p) as [E|[E|[E|E]]]; rewrite E;
      (split; [cbn; auto | discriminate]). }
  split.
  { destruct (enterSilent_post mode w) as (wS & E & HS & _ & Hm & _).
    exists wS, (rangeDraw 0 3 (raw_at w 1)).
    rewrite Hm.
    repeat split; try assumption; try reflexivity; try apply Hmood.
    destruct (rangeDraw_spec 0 3 (raw_at w 1)) as [Hv _]; [lia|].
    rewrite Hv. reflexivity. }
  split; [reflexivity|].
  split.
  { intros v Hv. replace v with (v - 0) at 1 by lia.
    apply rangeDraw_onto; lia. }
  intros clock rnd eyes_oldCy eyes_cy eyes_rWhite.
  unfold setup. unfold bind at 1 2. unfold gfx at 1. unfold modify at 1 2.
  match goal with
  | |- exists w0 d, enterSilent MODE_NORMAL ?w1 = _ /\ _ =>
    destruct (enterSilent_post MODE_NORMAL w1) as (wS & E & HS & Hd & Hm & _)
  end.
  exists wS. eexists. rewrite Hm.
  split; [exact E|]. split; [exact HS|].
  split; [apply Hmood|]. split; [apply Hmood|].
  split; [apply pick_duration|].
  exact Hd.
Qed.

(** Power-on with the clock at 1000, 1020, ... and the generator giving
    2, 9, 16, ...: Silent, mood Frown (pick 1), deadline 1000 + 15 s. *)
Lemma silent_mood_choice_witness :
  exists w0,
    @setup sample_patterns cyd_panel MODE_NORMAL 120 120 40
           (boot (fun n => 1000 + 20 * Z.of_nat n)
                 (fun n => 7 * Z.of_nat n + 2))
    = Some (tt, w0)
    /\ g_speech w0 = Silent
    /\ g_currMood w0 = Frown
    /\ g_stateUntilMs w0 = 16000
    /\ g_mouthW w0 = 117.
Proof.
  pose proof (@silent_mood_choice sample_patterns cyd_panel MODE_NORMAL
                sample_talking) as H.
  destruct H as (_ & _ & _ & Hboot).
  destruct (Hboot (fun n => 1000 + 20 * Z.of_nat n)
                  (fun n => 7 * Z.of_nat n + 2) 120 120 40)
    as (w0 & d & E & HS & _).
  exists w0. split; [exact E|]. split; [exact HS|].
  vm_compute in E. injection E as <-.
  repeat split.
Defined.

Section LabelBand.
Context {hdr : MouthPatterns} {panel : Panel}.

(** After the label band has been cleared and a frame drawn, a pixel
    of the band above the frame's clear band is black. *)
Lemma band_pixel_black hist baseY mouthW mf (s : Screen) px py :
  0 <= MOUTH_MAX_DY -> 0 <= MOUTH_CLEAR_PAD ->
  0 <= px < gfx_width -> 0 <= py < 20 ->
  py < baseY - MOUTH_MAX_DY - MOUTH_CLEAR_PAD ->
  render (hist ++ [StartWrite] ++ clearMoodLabel
            ++ drawMouthFrame baseY mouthW mf ++ [EndWrite]) s px py
  = TFT_BLACK.
Proof.
  intros HM HP Hx Hy Habove.
  rewrite render_pixel.
  rewrite !lastCover_app.
  rewrite (drawMouthFrame_below baseY mouthW mf px py HM HP Habove).
  cbn [lastCover covers clearMoodLabel].
  replace (0 <=? px) with true by (symmetry; apply Z.leb_le; lia).
  replace (px <? 0 + gfx_width) with true by (symmetry; apply Z.ltb_lt; lia).
  replace (0 <=? py) with true by (symmetry; apply Z.leb_le; lia).
  replace (py <? 0 + 20) with true by (symmetry; apply Z.ltb_lt; lia).
  reflexivity.
Qed.

Lemma transition_no_label hist baseY mouthW mf :
  shownLabels (hist ++ [StartWrite] ++ clearMoodLabel
                 ++ drawMouthFrame baseY mouthW mf ++ [EndWrite])
  = shownLabels hist.
Proof.
  rewrite shownLabels_app. cbn [app shownLabels clearMoodLabel].
  rewrite shownLabels_app, drawMouthFrame_no_label.
  cbn. apply app_nil_r.
Qed.

End LabelBand.

(** C10.  In a normal build [drawMoodLabel] issues nothing, yet
    [enterSilent] and [enterTalking] both issue, right after
    [startWrite], a black [fillRect] over rows 0..19 across the whole
    width, followed by the frame; no text is drawn.  Whatever the screen
    showed, every pixel of that band lying above the clear band of the
    mouth is black afterwards: the transitions write outside the mouth
    region. *)
Theorem transitions_blank_label_band {hdr : MouthPatterns} {panel : Panel}
        (w : World) :
  (forall txt, drawMoodLabel MODE_NORMAL txt = [])
  /\ clearMoodLabel = [FillRect 0 0 gfx_width 20 TFT_BLACK]
  /\ (exists wS,
         enterSilent MODE_NORMAL w = Some (tt, wS)
         /\ gfx_calls wS
            = gfx_calls w
              ++ [StartWrite] ++ [FillRect 0 0 gfx_width 20 TFT_BLACK]
              ++ drawMouthFrame (g_mouthY w) (g_mouthW w)
                                (moodToFrame (g_currMood wS))
              ++ [EndWrite]
         /\ shownLabels (gfx_calls wS) = shownLabels (gfx_calls w)
         /\ (forall (s : Screen) px py,
                0 <= MOUTH_MAX_DY -> 0 <= MOUTH_CLEAR_PAD ->
                0 <= px < gfx_width -> 0 <= py < 20 ->
                py < g_mouthY w - MOUTH_MAX_DY - MOUTH_CLEAR_PAD ->
                render (gfx_calls wS) s px py = TFT_BLACK))
  /\ (exists wT,
         enterTalking w = Some (tt, wT)
         /\ gfx_calls wT
            = gfx_calls w
              ++ [StartWrite] ++ [FillRect 0 0 gfx_width 20 TFT_BLACK]
              ++ drawMouthFrame (g_mouthY w) (g_mouthW w)
                   (TALK_FRAMES (wrapTalkIdx (g_currTalkIdx wT)))
              ++ [EndWrite]
         /\ shownLabels (gfx_calls wT) = shownLabels (gfx_calls w)
         /\ (forall (s : Screen) px py,
                0 <= MOUTH_MAX_DY -> 0 <= MOUTH_CLEAR_PAD ->
                0 <= px < gfx_width -> 0 <= py < 20 ->
                py < g_mouthY w - MOUTH_MAX_DY - MOUTH_CLEAR_PAD ->
                render (gfx_calls wT) s px py = TFT_BLACK)).
Proof.
  split; [reflexivity|]. split; [reflexivity|].
  split.
  - destruct (enterSilent_post MODE_NORMAL w)
      as (wS & E & _ & _ & _ & Hg & _).
    exists wS. split; [exact E|].
    split; [exact Hg|]. split.
    + rewrite Hg.
      exact (transition_no_label (gfx_calls w) (g_mouthY w) (g_mouthW w)
                                 (moodToFrame (g_currMood wS))).
    + intros s px py HM HP Hx Hy Habove. rewrite Hg.
      exact (band_pixel_black (gfx_calls w) (g_mouthY w) (g_mouthW w)
               (moodToFrame (g_currMood wS)) s px py HM HP Hx Hy Habove).
  - destruct (enterTalking_post w)
      as (wT & E & _ & _ & _ & _ & Hg & _).
    exists wT. split; [exact E|].
    split; [exact Hg|]. split.
    + rewrite Hg. apply transition_no_label.
    + intros s px py HM HP Hx Hy Habove. rewrite Hg.
      apply band_pixel_black; assumption.
Qed.

(** On the sample world (mouth band starting at row 210) with an
    all-white screen, pixel (5, 5) is black after either transition. *)
Lemma transitions_blank_label_band_witness :
  (exists wS,
      @enterSilent sample_patterns cyd_panel MODE_NORMAL sample_talking
      = Some (tt, wS)
      /\ render (gfx_calls wS) (fun _ _ => TFT_WHITE) 5 5 = TFT_BLACK)
  /\ (exists wT,
         @enterTalking sample_patterns cyd_panel sample_talking
         = Some (tt, wT)
         /\ render (gfx_calls wT) (fun _ _ => TFT_WHITE) 5 5 = TFT_BLACK).
Proof.
  destruct (@transitions_blank_label_band sample_patterns cyd_panel
              sample_talking)
    as (_ & _ & (wS & ES & _ & _ & HpS) & (wT & ET & _ & _ & HpT)).
  split.
  - exists wS. split; [exact ES|]. apply HpS; cbn; lia.
  - exists wT. split; [exact ET|]. apply HpT; cbn; lia.
Defined.

(* ================================================================== *)
(** ** The debug driver *)
(* ================================================================== *)

Section DebugFacts.
Context {hdr : MouthPatterns} {panel : Panel}.

Lemma add_gfx_calls_app a b w :
  add_gfx_calls b (add_gfx_calls a w) = add_gfx_calls (a ++ b) w.
Proof.
  unfold add_gfx_calls. world_fields. rewrite app_assoc. reflexivity.
Qed.

Lemma debugShow_run m w :
  debugShow m w = Some (tt, add_gfx_calls (debugOps w m) w).
Proof.
  run_sketch. rewrite !add_gfx_calls_app. unfold debugOps.
  rewrite <- ?app_assoc. reflexivity.
Qed.

Lemma debugOps_label w m : shownLabels (debugOps w m) = [moodName m].
Proof.
  unfold debugOps. cbn [app shownLabels].
  rewrite shownLabels_app, drawMouthFrame_no_label. reflexivity.
Qed.

Lemma debugOps_nonempty w m : (0 < List.length (debugOps w m))%nat.
Proof. unfold debugOps. cbn [app List.length]. lia. Qed.

(** A pass before the switch time only reads the clock. *)
Lemma loop_debug_hold fuel w :
  clock_at w 0 < dbg_nextSwitch w ->
  loop MODE_DEBUG fuel w = Some (tt, tick_millis w).
Proof.
  intros H. unfold clock_at in H. cbn [Nat.add] in H.
  unfold loop, bind, nowMs, get, ret. world_fields.
  replace (dbg_nextSwitch w <=? u32 (millis_src w (millis_calls w)))
    with false by (symmetry; apply Z.leb_gt; lia).
  reflexivity.
Qed.

(** A pass at or after the switch time shows the next mood of the
    table and sets the switch time 5000 ms after the time read. *)
Lemma loop_debug_switch fuel w :
  dbg_nextSwitch w <= clock_at w 0 ->
  let idx := Z.rem (dbg_idx w + 1) 5 in
  let m := nth (Z.to_nat idx) DEBUG_MOODS Neutral in
  loop MODE_DEBUG fuel w
  = Some (tt, set_dbg_nextSwitch
                (u32 (clock_at w 0 + DEBUG_MOOD_HOLD_MS))
                (add_gfx_calls (debugOps w m)
                               (set_dbg_idx idx (tick_millis w)))).
Proof.
  intros H idx m. unfold clock_at in *. cbn [Nat.add] in *.
  unfold loop. unfold bind at 1 2. unfold nowMs, get. world_fields.
  replace (dbg_nextSwitch w <=? u32 (millis_src w (millis_calls w)))
    with true by (symmetry; apply Z.leb_le; lia).
  unfold bind at 1. unfold modify at 1. unfold bind at 1.
  rewrite debugShow_run. unfold modify. reflexivity.
Qed.

Lemma cycleMoods_S n :
  cycleMoods (S n) = cycleMoods n ++ [nth (n mod 5) DEBUG_MOODS Neutral].
Proof.
  unfold cycleMoods. rewrite seq_S, map_app. reflexivity.
Qed.

Lemma next_index k :
  Z.rem (Z.of_nat (k mod 5) + 1) 5 = Z.of_nat (S k mod 5).
Proof.
  rewrite Z.rem_mod_nonneg by lia.
  rewrite (Nat2Z.inj_mod k 5), (Nat2Z.inj_mod (S k) 5).
  change (Z.of_nat 5) with 5. rewrite (Nat2Z.inj_succ k). unfold Z.succ.
  apply Zplus_mod_idemp_l.
Qed.

Lemma cycler_hold k w : cycler_at k w -> cycler_at k (tick_millis w).
Proof. intros H. exact H. Qed.

Lemma cycler_switch k w t :
  cycler_at k w ->
  cycler_at (S k)
    (set_dbg_nextSwitch t
       (add_gfx_calls
          (debugOps w (nth (Z.to_nat (Z.rem (dbg_idx w + 1) 5))
                          DEBUG_MOODS Neutral))
          (set_dbg_idx (Z.rem (dbg_idx w + 1) 5) (tick_millis w)))).
Proof.
  intros [Hi Hl]. unfold cycler_at. world_fields.
  rewrite Hi, next_index. split; [reflexivity|].
  rewrite shownLabels_app, Hl, debugOps_label.
  rewrite (cycleMoods_S (S k)), map_app. rewrite Nat2Z.id. reflexivity.
Qed.

(** [n] passes always finish; they make at most [n] switches and the
    labels drawn follow the table cyclically. *)
Lemma debug_run n : forall fuel w k,
  cycler_at k w ->
  exists wn j,
    loops MODE_DEBUG fuel n w = Some (tt, wn)
    /\ (j <= n)%nat
    /\ cycler_at (k + j) wn
    /\ List.length (debugSwitchTimes n w) = j
    /\ millis_src wn = millis_src w.
Proof.
  induction n as [|n IH]; intros fuel w k Hk.
  - exists w, O. cbn. rewrite Nat.add_0_r.
    split; [reflexivity|]. split; [lia|]. split; [exact Hk|].
    split; reflexivity.
  - cbn [loops debugSwitchTimes]. unfold bind at 1.
    destruct (Z_lt_le_dec (clock_at w 0) (dbg_nextSwitch w)) as [Hh|Hs].
    + rewrite !(loop_debug_hold _ w Hh).
      destruct (IH fuel (tick_millis w) k (cycler_hold k w Hk))
        as (wn & j & E & Hj & Hc & Hlen & Hm).
      exists wn, j. rewrite E.
      cbn [tick_millis gfx_calls]. rewrite Nat.ltb_irrefl. cbn [app].
      split; [reflexivity|]. split; [lia|]. split; [exact Hc|].
      split; [exact Hlen | exact Hm].
    + rewrite !(loop_debug_switch _ w Hs). cbv zeta.
      match goal with
      | |- exists wn j, loops _ _ _ ?w1 = _ /\ _ =>
        destruct (IH fuel w1 (S k) (cycler_switch k w _ Hk))
          as (wn & j & E & Hj & Hc & Hlen & Hm)
      end.
      exists wn, (S j). rewrite E.
      world_fields.
      replace (Nat.ltb _ _) with true
        by (symmetry; apply Nat.ltb_lt; rewrite length_app;
            pose proof (debugOps_nonempty w
              (nth (Z.to_nat (Z.rem (dbg_idx w + 1) 5)) DEBUG_MOODS Neutral));
            lia).
      cbn [app List.length]. rewrite Hlen.
      replace (k + S j)%nat with (S k + j)%nat by lia.
      split; [reflexivity|]. split; [lia|]. split; [exact Hc|].
      split; [reflexivity | exact Hm].
Qed.

(** No switch comes earlier than 5000 ms after the previous one. *)
Lemma debug_gaps n : forall w tl,
  (forall i, 0 <= millis_src w i < 4294967296 - DEBUG_MOOD_HOLD_MS) ->
  dbg_nextSwitch w = tl + DEBUG_MOOD_HOLD_MS ->
  held_at_least tl (debugSwitchTimes n w).
Proof.
  unfold held_at_least.
  induction n as [|n IH]; intros w tl Hclk Hdl.
  - constructor.
  - cbn [debugSwitchTimes].
    destruct (Z_lt_le_dec (clock_at w 0) (dbg_nextSwitch w)) as [Hh|Hs].
    + rewrite (loop_debug_hold _ w Hh).
      cbn [tick_millis gfx_calls]. rewrite Nat.ltb_irrefl. cbn [app].
      apply IH; [exact Hclk | exact Hdl].
    + rewrite (loop_debug_switch _ w Hs). cbv zeta. world_fields.
      replace (Nat.ltb _ _) with true
        by (symmetry; apply Nat.ltb_lt; rewrite length_app;
            pose proof (debugOps_nonempty w
              (nth (Z.to_nat (Z.rem (dbg_idx w + 1) 5)) DEBUG_MOODS Neutral));
            lia).
      cbn [app gaps]. constructor; [lia|].
      apply IH; world_fields; [exact Hclk|].
      apply u32_small.
      assert (Hc : clock_at w 0 = millis_src w (millis_calls w)).
      { unfold clock_at. cbn [Nat.add]. apply u32_small.
        specialize (Hclk (millis_calls w)).
        unfold DEBUG_MOOD_HOLD_MS in Hclk. lia. }
      rewrite Hc. specialize (Hclk (millis_calls w)).
      unfold DEBUG_MOOD_HOLD_MS in *. lia.
Qed.

(** Switches that are at least 5000 ms apart and all come before time
    [b] leave no room for more than [(b - t0) / 5000] of them. *)
Lemma held_at_least_bound (ts : list Z) : forall t0 b,
  held_at_least t0 ts ->
  (forall t, In t ts -> t < b) ->
  ts = [] \/ t0 + DEBUG_MOOD_HOLD_MS * Z.of_nat (List.length ts) < b.
Proof.
  unfold held_at_least.
  induction ts as [|t r IH]; intros t0 b Hg Hb; [left; reflexivity|].
  right. cbn [gaps] in Hg. inversion Hg as [|d l Hd Hr]; subst d l.
  destruct (IH t b Hr (fun u Hu => Hb u (or_intror Hu))) as [-> | Hlt].
  - specialize (Hb t (or_introl eq_refl)). cbn [List.length].
    unfold DEBUG_MOOD_HOLD_MS in *. lia.
  - cbn [List.length]. rewrite Nat2Z.inj_succ.
    unfold DEBUG_MOOD_HOLD_MS in *. lia.
Qed.

Lemma last_cons {A} (l : list A) : forall a d, last (a :: l) d = last l a.
Proof.
  induction l as [|b l IH]; intros a d; [reflexivity|].
  change (last (a :: b :: l) d) with (last (b :: l) d).
  change (last (b :: l) a) with (last (b :: l) a).
  rewrite (IH b d), (IH b a). reflexivity.
Qed.

Lemma clock_monotone (clock : nat -> Z) gap m :
  (forall i, (i < m)%nat -> clock i <= clock (S i) <= clock i + gap) ->
  forall i j, (i <= j)%nat -> (j <= m)%nat -> clock i <= clock j.
Proof.
  intros H i j Hij. induction Hij as [|j Hij IH]; intros Hm; [lia|].
  specialize (H j ltac:(lia)). specialize (IH ltac:(lia)). lia.
Qed.

(** With passes at most [gap] ms apart, every switch comes less than
    [gap] after its switch time; after [n] passes the switch time lies
    5000 ms after the last switch and after the last reading. *)
Lemma debug_timing gap fuel n : forall w tl q,
  (forall i, (i <= n + q)%nat ->
             0 <= millis_src w i < 4294967296 - DEBUG_MOOD_HOLD_MS) ->
  (forall i, (i < n + q)%nat ->
             millis_src w i <= millis_src w (S i) <= millis_src w i + gap) ->
  millis_calls w = S q ->
  dbg_nextSwitch w = tl + DEBUG_MOOD_HOLD_MS ->
  millis_src w q < tl + DEBUG_MOOD_HOLD_MS ->
  exists wn,
    loops MODE_DEBUG fuel n w = Some (tt, wn)
    /\ held_within gap tl (debugSwitchTimes n w)
    /\ (forall t, In t (debugSwitchTimes n w) -> t <= millis_src w (n + q))
    /\ dbg_nextSwitch wn
       = last (debugSwitchTimes n w) tl + DEBUG_MOOD_HOLD_MS
    /\ millis_src w (n + q) < dbg_nextSwitch wn.
Proof.
  unfold held_within.
  induction n as [|n IH]; intros w tl q Hclk Hstep Hq Hdl Hprev.
  - exists w. cbn [loops debugSwitchTimes gaps last Nat.add].
    split; [reflexivity|]. split; [constructor|].
    split; [intros t []|]. split; [exact Hdl|]. rewrite Hdl. exact Hprev.
  - assert (Hc : clock_at w 0 = millis_src w (S q)).
    { unfold clock_at. cbn [Nat.add]. rewrite Hq. apply u32_small.
      specialize (Hclk (S q) ltac:(lia)).
      unfold DEBUG_MOOD_HOLD_MS in Hclk. lia. }
    cbn [loops debugSwitchTimes]. unfold bind at 1.
    destruct (Z_lt_le_dec (clock_at w 0) (dbg_nextSwitch w)) as [Hh|Hs].
    + rewrite !(loop_debug_hold _ w Hh).
      destruct (IH (tick_millis w) tl (S q)) as (wn & E & Hg & Hb & Hd & Hl).
      * intros i Hi. apply Hclk. lia.
      * intros i Hi. apply Hstep. lia.
      * cbn [tick_millis millis_calls]. rewrite Hq. reflexivity.
      * exact Hdl.
      * cbn [tick_millis millis_src]. rewrite <- Hc, <- Hdl. exact Hh.
      * exists wn. rewrite E.
        cbn [tick_millis gfx_calls millis_src] in *.
        rewrite Nat.ltb_irrefl. cbn [app].
        replace (S n + q)%nat with (n + S q)%nat by lia.
        split; [reflexivity|]. split; [exact Hg|].
        split; [exact Hb|]. split; [exact Hd | exact Hl].
    + rewrite !(loop_debug_switch _ w Hs). cbv zeta.
      assert (Hnext : u32 (clock_at w 0 + DEBUG_MOOD_HOLD_MS)
                      = clock_at w 0 + DEBUG_MOOD_HOLD_MS).
      { apply u32_small. rewrite Hc. specialize (Hclk (S q) ltac:(lia)).
        unfold DEBUG_MOOD_HOLD_MS in *. lia. }
      match goal with
      | |- exists wn, loops _ _ _ ?w1 = _ /\ _ =>
        destruct (IH w1 (clock_at w 0) (S q))
          as (wn & E & Hg & Hb & Hd & Hl)
      end.
      * intros i Hi. apply Hclk. lia.
      * intros i Hi. apply Hstep. lia.
      * world_fields. rewrite Hq. reflexivity.
      * world_fields. exact Hnext.
      * world_fields. rewrite <- Hc. unfold DEBUG_MOOD_HOLD_MS. lia.
      * exists wn. rewrite E. world_fields.
        cbn [set_dbg_nextSwitch add_gfx_calls set_dbg_idx tick_millis
             millis_src gfx_calls] in *.
        replace (Nat.ltb _ _) with true
          by (symmetry; apply Nat.ltb_lt; rewrite length_app;
              pose proof (debugOps_nonempty w
                (nth (Z.to_nat (Z.rem (dbg_idx w + 1) 5)) DEBUG_MOODS Neutral));
              lia).
        cbn [app gaps]. rewrite last_cons.
        replace (S n + q)%nat with (n + S q)%nat by lia.
        split; [reflexivity|]. split.
        { constructor; [|exact Hg]. rewrite Hdl in Hs.
          pose proof (Hstep q ltac:(lia)) as Hsq. rewrite Hc.
          rewrite Hc in Hs. unfold DEBUG_MOOD_HOLD_MS in *. lia. }
        split.
        { intros t [<- | Ht]; [|apply Hb; exact Ht].
          rewrite Hc. apply (clock_monotone _ gap (S n + q) Hstep); lia. }
        split; [exact Hd | exact Hl].
Qed.

(** Holds within [gap] of 5000 ms put the last of [k] switches between
    [5000 k] and [(5000 + gap) k] after the start. *)
Lemma held_within_last gap (ts : list Z) : forall t0,
  held_within gap t0 ts ->
  t0 + DEBUG_MOOD_HOLD_MS * Z.of_nat (List.length ts) <= last ts t0
  /\ last ts t0
     <= t0 + (DEBUG_MOOD_HOLD_MS + gap) * Z.of_nat (List.length ts).
Proof.
  unfold held_within.
  induction ts as [|t r IH]; intros t0 Hg.
  - cbn [last List.length Z.of_nat]. lia.
  - cbn [gaps] in Hg. inversion Hg as [|d l Hd Hr]; subst d l.
    rewrite last_cons. cbn [List.length]. rewrite Nat2Z.inj_succ.
    rewrite !Z.mul_succ_r.
    destruct (IH t Hr) as [Hlo Hhi]. lia.
Qed.

Lemma held_within_at_least gap t0 ts :
  held_within gap t0 ts -> held_at_least t0 ts.
Proof.
  unfold held_within, held_at_least. apply Forall_impl. intros d Hd. lia.
Qed.

End DebugFacts.

Section DebugSetup.
Context {hdr : MouthPatterns} {panel : Panel}.

(** [setup()] of a debug build always returns: Neutral is shown with
    its label and the first switch is set 5000 ms after the time
    read. *)
Lemma setup_debug_run a b c w :
  exists w0,
    setup MODE_DEBUG a b c w = Some (tt, w0)
    /\ dbg_idx w0 = 0
    /\ dbg_nextSwitch w0 = u32 (clock_at w 0 + DEBUG_MOOD_HOLD_MS)
    /\ shownLabels (gfx_calls w0)
       = shownLabels (gfx_calls w) ++ [moodName Neutral]
    /\ millis_src w0 = millis_src w
    /\ millis_calls w0 = S (millis_calls w).
Proof.
  unfold setup. unfold bind at 1 2 3. unfold gfx at 1.
  unfold modify at 1 2 3. unfold bind at 1. rewrite debugShow_run.
  unfold bind, nowMs, modify. eexists. split; [reflexivity|].
  world_fields. repeat split.
  rewrite !shownLabels_app. cbn [shownLabels nth DEBUG_MOODS].
  rewrite debugOps_label. rewrite app_nil_r. reflexivity.
Qed.

End DebugSetup.

(** C8.  The debug table is Neutral, Smile, Frown, Puzzled, Oooh and
    the hold time 5000 ms.  Let [setup()] and the [n] passes of
    [loop()] that follow read times clear of the 32-bit wrap, and let
    the passes come at most [gap] ms apart, [gap] being at most one
    second.  [setup()] shows Neutral with its label and sets
    the first switch 5000 ms after the time it read; any number [n] of
    passes of [loop()] finishes; the labels drawn are the first [k+1]
    entries of the endless repetition of the table, with [k <= n] the
    number of switches; every mood is held for the 5000 ms of the hold
    time and less than [gap] more.  A run of 25 seconds, made of the
    passes that read a time less than 25000 ms after [setup()], has
    exactly four switches and shows exactly Neutral, Smile, Frown,
    Puzzled, Oooh, once each and in this order.  A pass that reads a
    time before the switch time draws nothing; a pass that reads the
    switch time or a later one shows the next mood of the table (Neutral
    after Oooh) with its label and sets the next switch 5000 ms after
    the time it read. *)
Theorem debug_cycle_walks_table {hdr : MouthPatterns} {panel : Panel}
        (clock rnd : nat -> Z) (eyes_oldCy eyes_cy eyes_rWhite : Z)
        (n fuel : nat) (gap : Z) :
  (forall i, (i <= n)%nat ->
             0 <= clock i < 4294967296 - DEBUG_MOOD_HOLD_MS) ->
  (forall i, (i <= n)%nat -> clock i <= clock (S i) <= clock i + gap) ->
  gap <= 1000 ->
  DEBUG_MOODS = [Neutral; Smile; Frown; Puzzled; Oooh]
  /\ DEBUG_MOOD_HOLD_MS = 5000
  /\ cycleMoods 6 = [Neutral; Smile; Frown; Puzzled; Oooh; Neutral]
  /\ (exists w0 wn k,
         setup MODE_DEBUG eyes_oldCy eyes_cy eyes_rWhite (boot clock rnd)
         = Some (tt, w0)
         /\ dbg_nextSwitch w0 = clock O + 5000
         /\ loops MODE_DEBUG fuel n w0 = Some (tt, wn)
         /\ (k <= n)%nat
         /\ shownLabels (gfx_calls wn) = map moodName (cycleMoods (S k))
         /\ List.length (debugSwitchTimes n w0) = k
         /\ held_within gap (clock O) (debugSwitchTimes n w0)
         /\ (clock n < clock O + 25000 <= clock (S n) ->
             k = 4%nat
             /\ shownLabels (gfx_calls wn)
                = ["Neutral"; "Smile"; "Frown"; "Puzzled"; "Oooh"]%string))
  /\ (forall w,
         clock_at w 0 < dbg_nextSwitch w ->
         loop MODE_DEBUG fuel w = Some (tt, tick_millis w))
  /\ (forall w,
         dbg_nextSwitch w <= clock_at w 0 ->
         exists w',
           loop MODE_DEBUG fuel w = Some (tt, w')
           /\ dbg_idx w' = Z.rem (dbg_idx w + 1) 5
           /\ dbg_nextSwitch w' = u32 (clock_at w 0 + 5000)
           /\ gfx_calls w'
              = gfx_calls w
                ++ debugOps w (nth (Z.to_nat (dbg_idx w')) DEBUG_MOODS Neutral)
           /\ shownLabels (gfx_calls w')
              = shownLabels (gfx_calls w)
                ++ [moodName (nth (Z.to_nat (dbg_idx w')) DEBUG_MOODS Neutral)]).
Proof.
  intros Hclk Hstep Hgap.
  split; [reflexivity|]. split; [reflexivity|]. split; [reflexivity|].
  split.
  { destruct (setup_debug_run eyes_oldCy eyes_cy eyes_rWhite (boot clock rnd))
      as (w0 & E & Hi & Hd & Hl & Hm & Hq).
    assert (Hd' : dbg_nextSwitch w0 = clock O + DEBUG_MOOD_HOLD_MS).
    { rewrite Hd. unfold clock_at. cbn [boot millis_src millis_calls Nat.add].
      pose proof (Hclk O ltac:(lia)) as H0. unfold DEBUG_MOOD_HOLD_MS in *.
      rewrite (u32_small (clock O)) by lia. apply u32_small. lia. }
    assert (Hc : cycler_at 0 w0).
    { split; [exact Hi|]. rewrite Hl. reflexivity. }
    destruct (debug_run n fuel w0 O Hc) as (wn & k & El & Hk & Hck & Hlen & _).
    cbn [boot millis_src millis_calls] in Hm, Hq.
    destruct (debug_timing gap fuel n w0 (clock O) O)
      as (wn' & El' & Hg & Hb & Hdn & Hln).
    { intros i Hin. rewrite Hm. apply Hclk. lia. }
    { intros i Hin. rewrite Hm. apply Hstep. lia. }
    { exact Hq. }
    { exact Hd'. }
    { rewrite Hm. unfold DEBUG_MOOD_HOLD_MS. lia. }
    assert (wn' = wn) by congruence. subst wn'.
    rewrite Hm, Nat.add_0_r in Hb, Hln.
    exists w0, wn, k.
    split; [exact E|]. split; [exact Hd'|]. split; [exact El|].
    split; [exact Hk|]. split; [apply Hck|]. split; [exact Hlen|].
    split; [exact Hg|].
    intros [Hlt Hge].
    assert (Hk4 : k = 4%nat).
    { destruct (held_within_last _ _ _ Hg) as [_ Hhi].
      rewrite Hlen in Hhi. rewrite Hdn in Hln.
      pose proof (Hstep n ltac:(lia)) as Hsn.
      assert (Hup : (k <= 4)%nat).
      { destruct (held_at_least_bound _ (clock O) (clock O + 25000)
                    (held_within_at_least _ _ _ Hg)) as [E0 | Hb4].
        - intros t Ht. specialize (Hb t Ht). lia.
        - rewrite E0 in Hlen. cbn in Hlen. lia.
        - rewrite Hlen in Hb4. unfold DEBUG_MOOD_HOLD_MS in Hb4. lia. }
      unfold DEBUG_MOOD_HOLD_MS in *.
      destruct k as [|[|[|[|[|k]]]]]; try lia;
        cbn [Z.of_nat Pos.of_succ_nat Pos.succ] in Hhi; lia. }
    split; [exact Hk4|]. destruct Hck as [_ Hlab]. rewrite Hlab, Hk4.
    reflexivity. }
  split.
  { intros w Hh. apply loop_debug_hold. exact Hh. }
  intros w Hs. eexists. split; [apply (loop_debug_switch fuel w Hs)|].
  world_fields. repeat split.
  rewrite shownLabels_app, debugOps_label. reflexivity.
Qed.

(** A debug build whose passes read 20, 40, 60, ... ms after a
    [setup()] at 0: the passes up to 24980 ms show the five moods once
    each. *)
Lemma debug_cycle_walks_table_witness :
  debugRunLabels (steady_clock 20) 1249
  = ["Neutral"; "Smile"; "Frown"; "Puzzled"; "Oooh"]%string.
Proof.
  destruct (@debug_cycle_walks_table sample_patterns cyd_panel
              (steady_clock 20) (fun _ => 0) 120 120 40 1249 0 20)
    as (_ & _ & _ & (w0 & wn & k & E & _ & El & _ & _ & _ & _ & H25) & _).
  - intros i Hi. unfold steady_clock, DEBUG_MOOD_HOLD_MS. lia.
  - intros i Hi. unfold steady_clock. rewrite Nat2Z.inj_succ. lia.
  - lia.
  - unfold debugRunLabels, exec, bind. rewrite E, El.
    apply H25. vm_compute. split; [reflexivity | discriminate].
Defined.

(** Passes every 33 ms after a [setup()] at 0.  The pass at 4983 ms
    still shows Neutral and the next one, at 5016 ms, switches: every
    mood is held for 5016 ms.  The 757 passes that read a time before
    25000 ms show the five moods once each; Neutral comes back with
    the pass at 25080 ms. *)
Example debug_run_33ms :
  debugRunLabels (steady_clock 33) 151 = ["Neutral"]%string
  /\ debugRunLabels (steady_clock 33) 152 = ["Neutral"; "Smile"]%string
  /\ debugRunSwitches (steady_clock 33) 757 = [5016; 10032; 15048; 20064]
  /\ held_within 33 0 (debugRunSwitches (steady_clock 33) 757)
  /\ ~ held_exactly 0 (debugRunSwitches (steady_clock 33) 757)
  /\ debugRunLabels (steady_clock 33) 757
     = ["Neutral"; "Smile"; "Frown"; "Puzzled"; "Oooh"]%string
  /\ debugRunLabels (steady_clock 33) 759
     = ["Neutral"; "Smile"; "Frown"; "Puzzled"; "Oooh"]%string
  /\ debugRunLabels (steady_clock 33) 760
     = ["Neutral"; "Smile"; "Frown"; "Puzzled"; "Oooh"; "Neutral"]%string.
Proof.
  assert (E : debugRunSwitches (steady_clock 33) 757
              = [5016; 10032; 15048; 20064])
    by (vm_compute; reflexivity).
  split; [vm_compute; reflexivity|].
  split; [vm_compute; reflexivity|].
  split; [exact E|]. rewrite E.
  split.
  { unfold held_within, DEBUG_MOOD_HOLD_MS. cbn [gaps].
    repeat constructor; lia. }
  split.
  { unfold held_exactly. cbn [gaps].
    intros H. inversion H as [|d r Hd _]. discriminate Hd. }
  split; [vm_compute; reflexivity|].
  split; [vm_compute; reflexivity|].
  vm_compute; reflexivity.
Qed.

(** A 25-second run with a pass every 20 ms: the five moods, once each,
    each held for exactly 5000 ms; the pass at 25000 ms wraps to
    Neutral. *)
Example debug_run_25s :
  debugRunLabels (steady_clock 20) 1249
  = ["Neutral"; "Smile"; "Frown"; "Puzzled"; "Oooh"]%string
  /\ debugRunSwitches (steady_clock 20) 1249
     = [5000; 10000; 15000; 20000]
  /\ held_exactly 0 (debugRunSwitches (steady_clock 20) 1249)
  /\ debugRunLabels (steady_clock 20) 1250
     = ["Neutral"; "Smile"; "Frown"; "Puzzled"; "Oooh"; "Neutral"]%string.
Proof.
  assert (E : debugRunSwitches (steady_clock 20) 1249
              = [5000; 10000; 15000; 20000])
    by (vm_compute; reflexivity).
  split; [vm_compute; reflexivity|].
  split; [exact E|]. rewrite E.
  split; [unfold held_exactly; cbn [gaps]; repeat constructor|].
  vm_compute; reflexivity.
Qed.

(** Close to the wrap of the millisecond counter the switch time wraps
    and the next pass switches at once. *)
Example debug_switch_at_wrap :
  debugRunSwitches (fun i => 4294967000 + 20 * Z.of_nat i) 3
  = [4294967020; 4294967040; 4294967060].
Proof. vm_compute. reflexivity. Qed.

(* ================================================================== *)
(** ** The serial link *)
(* ================================================================== *)

Module UsbLinkFacts.

Import UsbLink.
Open Scope string_scope.
















(** The scenarios of the specification, byte for byte. *)
Example start_smile_scenario :
  loop (list_ascii_of_string "START SMILE" ++ [LF])
       {| line := ""; led := LOW; serial_out := "" |}
  = {| line := ""; led := HIGH;
       serial_out := ack_start_smile ++ String CR (String LF "") |}.
Proof. reflexivity. Qed.

Example dance_scenario :
  loop (list_ascii_of_string "dance" ++ [CR; LF])
       {| line := ""; led := HIGH; serial_out := "" |}
  = {| line := ""; led := HIGH;
       serial_out := error_head ++ "dance" ++ error_tail
                                ++ String CR (String LF "") |}.
Proof. reflexivity. Qed.

Example reply_bytes :
  map nat_of_ascii (list_ascii_of_string ack_stop)
  = [123; 34; 97; 99; 107; 34; 58; 34; 115; 116; 111; 112; 34; 125]%nat
  /\ map nat_of_ascii (list_ascii_of_string (error_head ++ "x" ++ error_tail))
     = [123; 34; 101; 114; 114; 111; 114; 34; 58; 34; 117; 110; 107; 110;
        111; 119; 110; 95; 99; 109; 100; 34; 44; 34; 99; 109; 100; 34; 58;
        34; 120; 34; 125]%nat.
Proof. split; reflexivity. Qed.

(** A line of white space only is answered with an error carrying an
    empty token. *)
Example blank_line_reply :
  serial_out (loop (list_ascii_of_string "   " ++ [LF])
                   {| line := ""; led := LOW; serial_out := "" |})
  = error_head ++ error_tail ++ String CR (String LF "").
Proof. reflexivity. Qed.

End UsbLinkFacts.

(* ================================================================== *)
(** ** Further properties of the renderer *)
(* ================================================================== *)

(** [randRange(lo, hi)] for a range of 1 to 2^31 values: it returns,
    consumes exactly one value of the generator and changes nothing
    else, and its result is [lo] plus the residue of [random(0x7fffffff)]
    modulo the size of the range, hence within [lo, hi]. *)
Theorem randRange_within (lo hi : Z) (w : World) :
  0 < hi - lo + 1 <= 2147483648 ->
  exists v,
    randRange lo hi w = Some (v, tick_random w)
    /\ v = lo + (raw_at w 0 mod 2147483647) mod (hi - lo + 1)
    /\ lo <= v <= hi.
Proof.
  intros Hn. exists (rangeDraw lo hi (raw_at w 0)).
  split; [reflexivity|].
  apply rangeDraw_spec. exact Hn.
Qed.

Lemma randRange_within_witness :
  exists v,
    randRange (-40) 40 sample_talking = Some (v, tick_random sample_talking)
    /\ v = -38.
Proof.
  destruct (randRange_within (-40) 40 sample_talking) as (v & E & Hv & _);
    [lia|].
  exists v. split; [exact E|]. rewrite Hv. reflexivity.
Defined.

Section WrapFacts.
Context {hdr : MouthPatterns} {panel : Panel}.

Lemma wrapTalkIdx_id idx :
  0 <= idx < NUM_TALK_FRAMES -> wrapTalkIdx idx = idx.
Proof.
  intros H. rewrite wrapTalkIdx_mod by lia. apply Z.mod_small. exact H.
Qed.

Lemma wrapTalkIdx_period idx k :
  0 < NUM_TALK_FRAMES ->
  wrapTalkIdx (idx + k * NUM_TALK_FRAMES) = wrapTalkIdx idx.
Proof.
  intros H. rewrite !wrapTalkIdx_mod by exact H. apply Z_mod_plus_full.
Qed.

End WrapFacts.

(** With a non-empty talk bank, [drawMouthTalkIdx] draws frame [idx]
    itself for every index of the bank, and an index shifted by any
    multiple (positive or negative) of the bank size draws exactly what
    the index draws. *)
Theorem drawMouthTalkIdx_periodic {hdr : MouthPatterns} {panel : Panel}
        (idx k : Z) (w : World) :
  0 < NUM_TALK_FRAMES ->
  drawMouthTalkIdx (idx + k * NUM_TALK_FRAMES) w = drawMouthTalkIdx idx w
  /\ (0 <= idx < NUM_TALK_FRAMES ->
      drawMouthTalkIdx idx w
      = Some (tt, add_gfx_calls
                    (drawMouthFrame (g_mouthY w) (g_mouthW w)
                                    (TALK_FRAMES idx)) w)).
Proof.
  intros HN. split.
  - unfold drawMouthTalkIdx. rewrite wrapTalkIdx_period by exact HN.
    reflexivity.
  - intros Hi. unfold drawMouthTalkIdx. rewrite wrapTalkIdx_id by exact Hi.
    reflexivity.
Qed.

Lemma drawMouthTalkIdx_periodic_witness :
  @drawMouthTalkIdx sample_patterns cyd_panel (-10) sample_talking
  = @drawMouthTalkIdx sample_patterns cyd_panel 2 sample_talking.
Proof.
  change (-10) with (2 + (-2) * @NUM_TALK_FRAMES sample_patterns).
  apply (@drawMouthTalkIdx_periodic sample_patterns cyd_panel).
  cbn. lia.
Defined.

Section CallFacts.
Context {hdr : MouthPatterns} {panel : Panel}.

Lemma segmentStrokes_count baseY (segs : list Segment) :
  List.length (flat_map (segmentStrokes baseY) segs)
  = (2 * List.length segs)%nat.
Proof.
  induction segs as [|s r IH]; [reflexivity|].
  cbn [flat_map segmentStrokes app List.length]. rewrite IH. lia.
Qed.

(** Every call of a frame after the first one is a white stroke. *)
Lemma drawMouthFrame_strokes baseY mouthW mf :
  exists strokes,
    drawMouthFrame baseY mouthW mf
    = FillRect (mouthX_of mouthW)
               (baseY - MOUTH_MAX_DY - MOUTH_CLEAR_PAD) mouthW
               (baseY + MOUTH_MAX_DY + MOUTH_CLEAR_PAD
                - (baseY - MOUTH_MAX_DY - MOUTH_CLEAR_PAD) + 1) TFT_BLACK
      :: strokes
    /\ Forall is_white_stroke strokes
    /\ In (DrawFastHLine (mouthX_of mouthW) baseY ANCHOR_PX TFT_WHITE) strokes
    /\ In (DrawFastHLine (mouthX_of mouthW + mouthW - ANCHOR_PX) baseY
                         ANCHOR_PX TFT_WHITE) strokes.
Proof.
  unfold drawMouthFrame. cbn [app]. eexists. split; [reflexivity|].
  split.
  - constructor; [now eexists _, _, _|].
    constructor; [now eexists _, _, _|].
    apply Forall_forall. intros op Hop.
    apply in_flat_map in Hop. destruct Hop as (sg & _ & Hop).
    cbn in Hop. destruct Hop as [<-|[<-|[]]]; now eexists _, _, _.
  - split; [left; reflexivity | right; left; reflexivity].
Qed.

Lemma lastCover_white (ops : list GfxOp) px py :
  Forall is_white_stroke ops ->
  lastCover ops px py = None \/ lastCover ops px py = Some TFT_WHITE.
Proof.
  induction 1 as [|op r Hop _ IH]; [left; reflexivity|].
  cbn [lastCover]. destruct IH as [-> | ->]; [|right; reflexivity].
  destruct Hop as (x & y & w & ->). cbn [covers].
  destruct ((x <=? px) && (px <? x + w) && (py =? y))%bool; auto.
Qed.

Lemma lastCover_covered (ops : list GfxOp) op px py :
  In op ops -> covers op px py <> None -> lastCover ops px py <> None.
Proof.
  induction ops as [|o r IH]; intros Hin Hc; [contradiction|].
  cbn [lastCover]. destruct (lastCover r px py) eqn:E; [discriminate|].
  destruct Hin as [->|Hin]; [exact Hc|].
  exfalso. apply (IH Hin Hc). reflexivity.
Qed.

End CallFacts.

(** [drawMouthFrame] with a mouth not wider than its two anchors issues
    exactly three calls, the clear band and the two anchors, and no
    inner stroke; with a wider mouth it issues these three and two
    strokes for each of the [MOUTH_SEGMENTS] segments. *)
Theorem drawMouthFrame_calls {hdr : MouthPatterns} {panel : Panel}
        (baseY mouthW : Z) (mf : MouthFrame) :
  (mouthW - 2 * ANCHOR_PX <= 0 ->
   drawMouthFrame baseY mouthW mf
   = [ FillRect (mouthX_of mouthW)
                (baseY - MOUTH_MAX_DY - MOUTH_CLEAR_PAD) mouthW
                (baseY + MOUTH_MAX_DY + MOUTH_CLEAR_PAD
                 - (baseY - MOUTH_MAX_DY - MOUTH_CLEAR_PAD) + 1) TFT_BLACK;
       DrawFastHLine (mouthX_of mouthW) baseY ANCHOR_PX TFT_WHITE;
       DrawFastHLine (mouthX_of mouthW + mouthW - ANCHOR_PX) baseY
                     ANCHOR_PX TFT_WHITE ])
  /\ (0 < mouthW - 2 * ANCHOR_PX ->
      List.length (drawMouthFrame baseY mouthW mf)
      = (3 + 2 * Z.to_nat MOUTH_SEGMENTS)%nat).
Proof.
  split; intros H; unfold drawMouthFrame, mouthSegments.
  - replace (mouthW - 2 * ANCHOR_PX <=? 0) with true
      by (symmetry; apply Z.leb_le; lia).
    reflexivity.
  - replace (mouthW - 2 * ANCHOR_PX <=? 0) with false
      by (symmetry; apply Z.leb_gt; lia).
    rewrite length_app, segmentStrokes_count, segmentLoop_length.
    reflexivity.
Qed.

Lemma drawMouthFrame_calls_witness :
  List.length (@drawMouthFrame sample_patterns cyd_panel 222 4 flat_frame)
  = 3%nat
  /\ List.length (@drawMouthFrame sample_patterns cyd_panel 222 117 flat_frame)
     = 19%nat.
Proof.
  destruct (@drawMouthFrame_calls sample_patterns cyd_panel 222 4 flat_frame)
    as [H3 _].
  destruct (@drawMouthFrame_calls sample_patterns cyd_panel 222 117 flat_frame)
    as [_ H19].
  split.
  - rewrite H3 by (cbn; lia). reflexivity.
  - rewrite H19 by (cbn; lia). reflexivity.
Defined.

(** Inside the clear band of the mouth box, what [drawMouthFrame]
    leaves does not depend on what the screen showed before: every
    pixel there is black or white afterwards. *)
Theorem drawMouthFrame_erases_band {hdr : MouthPatterns} {panel : Panel}
        (baseY mouthW : Z) (mf : MouthFrame) (s s' : Screen) (px py : Z) :
  mouthX_of mouthW <= px < mouthX_of mouthW + mouthW ->
  baseY - MOUTH_MAX_DY - MOUTH_CLEAR_PAD <= py
  <= baseY + MOUTH_MAX_DY + MOUTH_CLEAR_PAD ->
  render (drawMouthFrame baseY mouthW mf) s px py
  = render (drawMouthFrame baseY mouthW mf) s' px py
  /\ (render (drawMouthFrame baseY mouthW mf) s px py = TFT_BLACK
      \/ render (drawMouthFrame baseY mouthW mf) s px py = TFT_WHITE).
Proof.
  intros Hx Hy.
  destruct (drawMouthFrame_strokes baseY mouthW mf) as (st & E & Hw & _).
  rewrite !render_pixel, E. cbn [lastCover].
  destruct (lastCover_white st px py Hw) as [-> | ->].
  - cbn [covers].
    replace (mouthX_of mouthW <=? px) with true
      by (symmetry; apply Z.leb_le; lia).
    replace (px <? mouthX_of mouthW + mouthW) with true
      by (symmetry; apply Z.ltb_lt; lia).
    replace (baseY - MOUTH_MAX_DY - MOUTH_CLEAR_PAD <=? py) with true
      by (symmetry; apply Z.leb_le; lia).
    match goal with
    | |- context [py <? ?b] =>
      replace (py <? b) with true by (symmetry; apply Z.ltb_lt; lia)
    end.
    cbn. split; [reflexivity | left; reflexivity].
  - split; [reflexivity | right; reflexivity].
Qed.

Lemma drawMouthFrame_erases_band_witness :
  render (@drawMouthFrame sample_patterns cyd_panel 222 117 flat_frame)
         (fun _ _ => 31) 150 215
  = TFT_BLACK.
Proof.
  destruct (@drawMouthFrame_erases_band sample_patterns cyd_panel 222 117
              flat_frame (fun _ _ => 31) (fun _ _ => TFT_BLACK) 150 215)
    as [E _]; [cbn; lia | cbn; lia |].
  rewrite E. vm_compute. reflexivity.
Defined.

(** Whatever the frame and the screen before, the baseline pixels of
    both anchors are white after [drawMouthFrame]. *)
Theorem drawMouthFrame_anchors_lit {hdr : MouthPatterns} {panel : Panel}
        (baseY mouthW : Z) (mf : MouthFrame) (s : Screen) (px : Z) :
  (mouthX_of mouthW <= px < mouthX_of mouthW + ANCHOR_PX
   \/ mouthX_of mouthW + mouthW - ANCHOR_PX <= px
      < mouthX_of mouthW + mouthW) ->
  render (drawMouthFrame baseY mouthW mf) s px baseY = TFT_WHITE.
Proof.
  intros Hx.
  destruct (drawMouthFrame_strokes baseY mouthW mf)
    as (st & E & Hw & Hl & Hr).
  rewrite render_pixel, E. cbn [lastCover].
  destruct (lastCover_white st px baseY Hw) as [Hn | ->]; [|reflexivity].
  exfalso. destruct Hx as [Hx|Hx].
  - apply (lastCover_covered st _ px baseY Hl); [|exact Hn].
    cbn [covers].
    replace (mouthX_of mouthW <=? px) with true
      by (symmetry; apply Z.leb_le; lia).
    replace (px <? mouthX_of mouthW + ANCHOR_PX) with true
      by (symmetry; apply Z.ltb_lt; lia).
    rewrite Z.eqb_refl. discriminate.
  - apply (lastCover_covered st _ px baseY Hr); [|exact Hn].
    cbn [covers].
    replace (mouthX_of mouthW + mouthW - ANCHOR_PX <=? px) with true
      by (symmetry; apply Z.leb_le; lia).
    replace (px <? mouthX_of mouthW + mouthW - ANCHOR_PX + ANCHOR_PX) with true
      by (symmetry; apply Z.ltb_lt; lia).
    rewrite Z.eqb_refl. discriminate.
Qed.

Lemma drawMouthFrame_anchors_lit_witness :
  render (@drawMouthFrame sample_patterns cyd_panel 222 117
                          (@TALK_FRAMES sample_patterns 4))
         (fun _ _ => 31) 102 222
  = TFT_WHITE.
Proof.
  apply (@drawMouthFrame_anchors_lit sample_patterns cyd_panel).
  left. cbn. lia.
Defined.

Section ConfineFacts.
Context {hdr : MouthPatterns} {panel : Panel}.

(** With no width forced, every segment lies between the loop's
    starting column and the left edge of the right anchor. *)
Lemma segmentLoop_within n : forall i x mouthX mouthW step mf,
  (0 < n)%nat ->
  i + Z.of_nat n = MOUTH_SEGMENTS ->
  Forall unforced (segmentLoop n i x mouthX mouthW step mf) ->
  x < mouthX + mouthW - ANCHOR_PX
  /\ forall s, In s (segmentLoop n i x mouthX mouthW step mf) ->
               x <= seg_x s
               /\ seg_x s + seg_w s <= mouthX + mouthW - ANCHOR_PX.
Proof.
  induction n as [|n IH]; intros i x mouthX mouthW step mf Hn Hi Hu.
  - inversion Hn.
  - destruct n as [|n'].
    + cbn [segmentLoop] in *.
      assert (E : (i =? MOUTH_SEGMENTS - 1) = true) by (apply Z.eqb_eq; lia).
      rewrite E in *.
      inversion Hu as [|s l Hs _]; subst. unfold unforced in Hs. cbn in Hs.
      split; [exact Hs|].
      intros s [<-|[]]. cbn.
      replace (mouthX + mouthW - ANCHOR_PX - x <? 1) with false
        by (symmetry; apply Z.ltb_ge; lia).
      lia.
    + remember (S n') as m eqn:Hm.
      cbn [segmentLoop] in *.
      assert (E : (i =? MOUTH_SEGMENTS - 1) = false) by (apply Z.eqb_neq; lia).
      rewrite E in *.
      set (nextX := mouthX + ANCHOR_PX
                    + F32.lroundf (F32.mul step (F32.of_int (i + 1)))) in *.
      inversion Hu as [|s l Hs Hrest]; subst s l.
      unfold unforced in Hs. cbn in Hs.
      destruct (IH (i + 1) nextX mouthX mouthW step mf) as (Hlt & Hall);
        [lia | lia | exact Hrest |].
      split; [lia|].
      intros s [<-|Hin].
      * cbn. replace (nextX - x <? 1) with false
          by (symmetry; apply Z.ltb_ge; lia).
        lia.
      * destruct (Hall s Hin). lia.
Qed.

Lemma mouthSegments_within mouthW mf s :
  1 <= MOUTH_SEGMENTS ->
  Forall unforced (mouthSegments mouthW mf) ->
  In s (mouthSegments mouthW mf) ->
  mouthX_of mouthW + ANCHOR_PX <= seg_x s
  /\ seg_x s + seg_w s <= mouthX_of mouthW + mouthW - ANCHOR_PX.
Proof.
  unfold mouthSegments. intros Hseg Hu Hin.
  destruct (mouthW - 2 * ANCHOR_PX <=? 0); [contradiction|].
  match type of Hin with
  | In _ (segmentLoop ?n ?i ?x ?mx ?mw ?st ?f) =>
    destruct (segmentLoop_within n i x mx mw st f) as [_ Hall];
      [lia | lia | exact Hu |]
  end.
  apply Hall. exact Hin.
Qed.

End ConfineFacts.

(** With non-negative [MOUTH_MAX_DY] and [MOUTH_CLEAR_PAD],
    [drawMouthFrame] leaves every pixel of every row above or below its
    clear band as it was. *)
Theorem drawMouthFrame_rows_confined {hdr : MouthPatterns} {panel : Panel}
        (baseY mouthW : Z) (mf : MouthFrame) (s : Screen) (px py : Z) :
  0 <= MOUTH_MAX_DY -> 0 <= MOUTH_CLEAR_PAD ->
  (py < baseY - MOUTH_MAX_DY - MOUTH_CLEAR_PAD
   \/ baseY + MOUTH_MAX_DY + MOUTH_CLEAR_PAD < py) ->
  render (drawMouthFrame baseY mouthW mf) s px py = s px py.
Proof.
  intros HM HP Hpy. rewrite render_pixel.
  rewrite lastCover_untouched; [reflexivity|].
  intros op Hop.
  destruct op as [| |c|x y w h c|x y w c| | | |]; try reflexivity.
  - exfalso.
    destruct (drawMouthFrame_strokes baseY mouthW mf) as (st & E & Hw & _).
    rewrite E in Hop. destruct Hop as [H|Hop]; [discriminate|].
    rewrite Forall_forall in Hw. destruct (Hw _ Hop) as (? & ? & ? & H).
    discriminate.
  - destruct (drawMouthFrame_strokes baseY mouthW mf) as (st & E & Hw & _).
    rewrite E in Hop. destruct Hop as [H|Hop].
    + injection H as <- <- <- <- <-. cbn [covers].
      destruct Hpy as [Hpy|Hpy].
      * replace (baseY - MOUTH_MAX_DY - MOUTH_CLEAR_PAD <=? py) with false
          by (symmetry; apply Z.leb_gt; lia).
        rewrite andb_false_r. reflexivity.
      * match goal with
        | |- context [py <? ?b] =>
          replace (py <? b) with false by (symmetry; apply Z.ltb_ge; lia)
        end.
        rewrite andb_false_r. reflexivity.
    + rewrite Forall_forall in Hw. destruct (Hw _ Hop) as (? & ? & ? & H).
      discriminate.
  - pose proof (drawMouthFrame_rows _ _ _ _ _ _ _ HM Hop) as Hy.
    cbn [covers].
    replace (py =? y) with false by (symmetry; apply Z.eqb_neq; lia).
    rewrite andb_false_r. reflexivity.
Qed.

Lemma drawMouthFrame_rows_confined_witness :
  render (@drawMouthFrame sample_patterns cyd_panel 222 117
                          (@TALK_FRAMES sample_patterns 4))
         (fun _ _ => 31) 150 235
  = 31.
Proof.
  apply (@drawMouthFrame_rows_confined sample_patterns cyd_panel 222 117
           (@TALK_FRAMES sample_patterns 4) (fun _ _ => 31) 150 235);
    cbn; lia.
Defined.

(** With anchors of a length between 0 and the mouth width, at least
    one segment, and no segment width forced, [drawMouthFrame] leaves
    every pixel of every column left or right of the mouth box as it
    was. *)
Theorem drawMouthFrame_columns_confined
        {hdr : MouthPatterns} {panel : Panel}
        (baseY mouthW : Z) (mf : MouthFrame) (s : Screen) (px py : Z) :
  0 <= ANCHOR_PX <= mouthW ->
  1 <= MOUTH_SEGMENTS ->
  Forall unforced (mouthSegments mouthW mf) ->
  (px < mouthX_of mouthW \/ mouthX_of mouthW + mouthW <= px) ->
  render (drawMouthFrame baseY mouthW mf) s px py = s px py.
Proof.
  intros HA Hseg Hu Hpx. rewrite render_pixel.
  rewrite lastCover_untouched; [reflexivity|].
  intros op Hop. unfold drawMouthFrame in Hop.
  apply in_app_or in Hop. destruct Hop as [Hop|Hop].
  - cbn in Hop. destruct Hop as [<-|[<-|[<-|[]]]]; cbn [covers].
    + destruct Hpx as [Hpx|Hpx].
      * replace (mouthX_of mouthW <=? px) with false
          by (symmetry; apply Z.leb_gt; lia).
        reflexivity.
      * replace (px <? mouthX_of mouthW + mouthW) with false
          by (symmetry; apply Z.ltb_ge; lia).
        rewrite andb_false_r. reflexivity.
    + destruct Hpx as [Hpx|Hpx].
      * replace (mouthX_of mouthW <=? px) with false
          by (symmetry; apply Z.leb_gt; lia).
        reflexivity.
      * replace (px <? mouthX_of mouthW + ANCHOR_PX) with false
          by (symmetry; apply Z.ltb_ge; lia).
        rewrite andb_false_r. reflexivity.
    + destruct Hpx as [Hpx|Hpx].
      * replace (mouthX_of mouthW + mouthW - ANCHOR_PX <=? px) with false
          by (symmetry; apply Z.leb_gt; lia).
        reflexivity.
      * replace (px <? mouthX_of mouthW + mouthW - ANCHOR_PX + ANCHOR_PX)
          with false by (symmetry; apply Z.ltb_ge; lia).
        rewrite andb_false_r. reflexivity.
  - apply in_flat_map in Hop. destruct Hop as (sg & Hsg & Hop).
    destruct (mouthSegments_within mouthW mf sg Hseg Hu Hsg) as [Hl Hr].
    cbn in Hop. destruct Hop as [<-|[<-|[]]]; cbn [covers].
    + destruct Hpx as [Hpx|Hpx].
      * replace (seg_x sg <=? px) with false
          by (symmetry; apply Z.leb_gt; lia).
        reflexivity.
      * replace (px <? seg_x sg + seg_w sg) with false
          by (symmetry; apply Z.ltb_ge; lia).
        rewrite andb_false_r. reflexivity.
    + destruct Hpx as [Hpx|Hpx].
      * replace (seg_x sg <=? px) with false
          by (symmetry; apply Z.leb_gt; lia).
        reflexivity.
      * replace (px <? seg_x sg + seg_w sg) with false
          by (symmetry; apply Z.ltb_ge; lia).
        rewrite andb_false_r. reflexivity.
Qed.

Lemma drawMouthFrame_columns_confined_witness :
  render (@drawMouthFrame sample_patterns cyd_panel 222 117
                          (@TALK_FRAMES sample_patterns 4))
         (fun _ _ => 31) 218 222
  = 31.
Proof.
  apply (@drawMouthFrame_columns_confined sample_patterns cyd_panel 222 117
           (@TALK_FRAMES sample_patterns 4) (fun _ _ => 31) 218 222).
  - cbn. lia.
  - cbn. lia.
  - apply unforcedb_Forall. vm_compute. reflexivity.
  - right. cbn. lia.
Defined.

(* ================================================================== *)
(** ** Further properties of the speech state machine *)
(* ================================================================== *)

Section PassFacts.
Context {hdr : MouthPatterns} {panel : Panel}.

Lemma clock_at_tick w k : clock_at (tick_millis w) k = clock_at w (S k).
Proof.
  unfold clock_at. cbn [tick_millis millis_src millis_calls].
  do 2 f_equal. lia.
Qed.

Lemma clock_reads_shift n w :
  clock_reads n (tick_millis w) = clock_reads (S n) w.
Proof.
  induction n as [|n IH]; [reflexivity|].
  change (clock_reads (S n) (tick_millis w))
    with (tick_millis (clock_reads n (tick_millis w))).
  rewrite IH. reflexivity.
Qed.

Lemma clock_reads_frame n w :
  g_speech (clock_reads n w) = g_speech w
  /\ g_stateUntilMs (clock_reads n w) = g_stateUntilMs w
  /\ g_currMood (clock_reads n w) = g_currMood w
  /\ g_nextMouthSwapMs (clock_reads n w) = g_nextMouthSwapMs w
  /\ g_currTalkIdx (clock_reads n w) = g_currTalkIdx w
  /\ random_calls (clock_reads n w) = random_calls w
  /\ gfx_calls (clock_reads n w) = gfx_calls w
  /\ millis_calls (clock_reads n w) = (n + millis_calls w)%nat.
Proof.
  induction n as [|n IH]; [repeat split|].
  change (clock_reads (S n) w) with (tick_millis (clock_reads n w)).
  cbn [tick_millis g_speech g_stateUntilMs g_currMood g_nextMouthSwapMs
       g_currTalkIdx random_calls gfx_calls millis_calls].
  destruct IH as (H1 & H2 & H3 & H4 & H5 & H6 & H7 & H8).
  rewrite H8. repeat split; assumption.
Qed.

(** The ways a pass of the normal driver can go. *)
Lemma loop_normal_cases fuel w w' :
  exec (loop MODE_NORMAL fuel) w = Some w' ->
  w' = tick_millis w
  \/ exec (swapTalkFrame fuel (clock_at w 0)) (tick_millis w) = Some w'
  \/ enterSilent MODE_NORMAL (tick_millis w) = Some (tt, w')
  \/ exists wT,
       enterTalking (tick_millis w) = Some (tt, wT)
       /\ (w' = wT
           \/ exec (swapTalkFrame fuel (clock_at w 0)) wT = Some w').
Proof.
  intros H. unfold exec in H.
  destruct (Z_lt_le_dec (clock_at w 0) (g_stateUntilMs w)) as [Hd|Hd].
  - rewrite (loop_no_transition fuel w Hd) in H.
    destruct (g_speech w).
    + left. now injection H as <-.
    + destruct (g_nextMouthSwapMs w <=? clock_at w 0).
      * right. left. exact H.
      * left. now injection H as <-.
  - destruct (g_speech w) eqn:Hs.
    + destruct (enterTalking_post (tick_millis w)) as (wT & E & _).
      rewrite (loop_to_talking fuel w wT Hs Hd E) in H.
      right. right. right. exists wT. split; [exact E|].
      destruct (g_nextMouthSwapMs wT <=? clock_at w 0).
      * right. exact H.
      * left. now injection H as <-.
    + rewrite (loop_to_silent fuel w Hs Hd) in H.
      right. right. left.
      destruct (enterSilent MODE_NORMAL (tick_millis w)) as [[[] w1]|];
        [now injection H as <- | discriminate].
Qed.

Lemma loops_step mode fuel n w w' :
  exec (loops mode fuel (S n)) w = Some w' ->
  exists w1, exec (loop mode fuel) w = Some w1
             /\ exec (loops mode fuel n) w1 = Some w'.
Proof.
  unfold exec. cbn [loops]. unfold bind.
  destruct (loop mode fuel w) as [[[] w1]|]; [|discriminate].
  intros H. exists w1. split; [reflexivity | exact H].
Qed.

Lemma swap_labels fuel tNow w w' :
  exec (swapTalkFrame fuel tNow) w = Some w' ->
  shownLabels (gfx_calls w') = shownLabels (gfx_calls w).
Proof.
  intros H. apply swapTalkFrame_sound in H.
  destruct H as (j & _ & _ & _ & _ & Hg & _).
  rewrite Hg, !shownLabels_app, drawMouthFrame_no_label.
  cbn. rewrite !app_nil_r. reflexivity.
Qed.

(** No pass of the normal driver hands a text to the display. *)
Lemma loop_normal_labels fuel w w1 :
  exec (loop MODE_NORMAL fuel) w = Some w1 ->
  shownLabels (gfx_calls w1) = shownLabels (gfx_calls w).
Proof.
  intros H1. apply loop_normal_cases in H1.
  destruct H1 as [-> | [Hsw | [Hsi | (wT & HT & [-> | Hsw])]]].
  - reflexivity.
  - exact (swap_labels _ _ _ _ Hsw).
  - destruct (enterSilent_post MODE_NORMAL (tick_millis w))
      as (wS & E & _ & _ & _ & Hg & _).
    assert (w1 = wS) by congruence. subst w1. rewrite Hg.
    exact (transition_no_label (gfx_calls w) _ _ _).
  - destruct (enterTalking_post (tick_millis w))
      as (wT' & E & _ & _ & _ & _ & Hg & _).
    assert (wT' = wT) by congruence. subst wT'. rewrite Hg.
    exact (transition_no_label (gfx_calls w) _ _ _).
  - rewrite (swap_labels _ _ _ _ Hsw).
    destruct (enterTalking_post (tick_millis w))
      as (wT' & E & _ & _ & _ & _ & Hg & _).
    assert (wT' = wT) by congruence. subst wT'. rewrite Hg.
    exact (transition_no_label (gfx_calls w) _ _ _).
Qed.

Lemma shownLabels_concat (a : list GfxOp) (r : list (list GfxOp)) :
  shownLabels (List.concat (a :: r))
  = shownLabels a ++ shownLabels (List.concat r).
Proof. cbn [List.concat]. apply shownLabels_app. Qed.

(** A pass with its eyes update is the driver run on the display the
    update leaves. *)
Lemma loop_with_eyes mode fuel upd w :
  WithEyes.loop mode fuel upd w = loop mode fuel (add_gfx_calls upd w).
Proof. reflexivity. Qed.

Lemma swap_idx fuel tNow w w' :
  1 <= NUM_TALK_FRAMES <= 2147483647 ->
  exec (swapTalkFrame fuel tNow) w = Some w' ->
  0 <= g_currTalkIdx w' < NUM_TALK_FRAMES.
Proof.
  intros HN H. apply swapTalkFrame_sound in H.
  destruct H as (j & -> & _).
  destruct (rangeDraw_spec 0 (NUM_TALK_FRAMES - 1) (raw_at w j)) as [_ Hr];
    lia.
Qed.

End PassFacts.

(** In the normal driver, consecutive passes of [loop()] that all read
    a time before the end of the phase, in [Silent] or with the next
    swap not yet due, update the eyes and read the clock and do nothing
    else: the display receives the calls of the eyes updates and no
    other, main_full.cpp draws no random value, and state, mood, frame
    index, both deadlines and the mouth box stay as they are. *)
Theorem idle_passes_only_update_eyes {hdr : MouthPatterns} {panel : Panel}
        (upds : list WithEyes.EyesCall) (fuel : nat) (w : World) :
  (forall k, (k < List.length upds)%nat -> clock_at w k < g_stateUntilMs w) ->
  (g_speech w = Silent
   \/ forall k, (k < List.length upds)%nat ->
                clock_at w k < g_nextMouthSwapMs w) ->
  exists w',
    WithEyes.loops MODE_NORMAL fuel upds w = Some (tt, w')
    /\ gfx_calls w' = gfx_calls w ++ List.concat upds
    /\ random_calls w' = random_calls w
    /\ millis_calls w' = (List.length upds + millis_calls w)%nat
    /\ g_speech w' = g_speech w
    /\ g_currMood w' = g_currMood w
    /\ g_currTalkIdx w' = g_currTalkIdx w
    /\ g_stateUntilMs w' = g_stateUntilMs w
    /\ g_nextMouthSwapMs w' = g_nextMouthSwapMs w
    /\ g_mouthY w' = g_mouthY w
    /\ g_mouthW w' = g_mouthW w.
Proof.
  revert w. induction upds as [|upd r IH]; intros w Hd Hs.
  - exists w. cbn [WithEyes.loops List.concat List.length Nat.add].
    rewrite app_nil_r. repeat split.
  - cbn [WithEyes.loops]. unfold bind at 1. rewrite loop_with_eyes.
    set (w1 := add_gfx_calls upd w).
    assert (Hd0 : clock_at w1 0 < g_stateUntilMs w1).
    { apply (Hd O). cbn [List.length]. lia. }
    rewrite (loop_no_transition fuel w1 Hd0).
    assert (Hstep : match g_speech w1 with
                    | Silent => Some (tt, tick_millis w1)
                    | Talking =>
                      if g_nextMouthSwapMs w1 <=? clock_at w1 0
                      then swapTalkFrame fuel (clock_at w1 0) (tick_millis w1)
                      else Some (tt, tick_millis w1)
                    end = Some (tt, tick_millis w1)).
    { change (g_speech w1) with (g_speech w).
      destruct Hs as [-> | Hsw]; [reflexivity|].
      destruct (g_speech w); [reflexivity|].
      replace (g_nextMouthSwapMs w1 <=? clock_at w1 0) with false;
        [reflexivity|].
      symmetry. apply Z.leb_gt. apply (Hsw O). cbn [List.length]. lia. }
    rewrite Hstep.
    destruct (IH (tick_millis w1))
      as (w' & E & Hg & Hr & Hm & H1 & H2 & H3 & H4 & H5 & H6 & H7).
    + intros k Hk. rewrite clock_at_tick. apply (Hd (S k)).
      cbn [List.length]. lia.
    + destruct Hs as [Hs | Hsw]; [left; exact Hs | right].
      intros k Hk. rewrite clock_at_tick. apply (Hsw (S k)).
      cbn [List.length]. lia.
    + exists w'. split; [exact E|].
      rewrite Hg, Hr, Hm, H1, H2, H3, H4, H5, H6, H7.
      subst w1. cbn [tick_millis add_gfx_calls gfx_calls random_calls
                     millis_calls g_speech g_currMood g_currTalkIdx
                     g_stateUntilMs g_nextMouthSwapMs g_mouthY g_mouthW
                     List.concat List.length].
      rewrite <- app_assoc.
      repeat split. lia.
Qed.

(** The sample talking world with its swap 100 ms away: in the passes
    at 1000, 1020, 1040 ms the display receives the calls of the three
    eyes updates and nothing else. *)
Lemma idle_passes_only_update_eyes_witness :
  exists w',
    @WithEyes.loops sample_patterns cyd_panel MODE_NORMAL 0
       [[FillRect 100 60 20 4 TFT_BLACK]; []; [DrawFastHLine 100 62 20 TFT_WHITE]]
       (set_g_nextMouthSwapMs 1100 sample_talking)
    = Some (tt, w')
    /\ gfx_calls w'
       = [FillRect 100 60 20 4 TFT_BLACK; DrawFastHLine 100 62 20 TFT_WHITE]
    /\ g_currTalkIdx w' = 2.
Proof.
  destruct (@idle_passes_only_update_eyes sample_patterns cyd_panel
              [[FillRect 100 60 20 4 TFT_BLACK]; [];
               [DrawFastHLine 100 62 20 TFT_WHITE]]
              0 (set_g_nextMouthSwapMs 1100 sample_talking))
    as (w' & E & Hg & _ & _ & _ & _ & Hi & _).
  - intros k Hk. cbn [List.length] in Hk.
    destruct k as [|[|[|k]]]; try lia; vm_compute; reflexivity.
  - right. intros k Hk. cbn [List.length] in Hk.
    destruct k as [|[|[|k]]]; try lia; vm_compute; reflexivity.
  - exists w'. split; [exact E|]. split; [exact Hg | exact Hi].
Defined.

(** With 1 to INT_MAX talk frames, the frame index stays an index of
    the bank: if it is one before [n] passes of the normal driver, it
    is one after them, so the bank is never read outside itself. *)
Theorem talk_index_stays_in_bank {hdr : MouthPatterns} {panel : Panel}
        (n fuel : nat) (w w' : World) :
  1 <= NUM_TALK_FRAMES <= 2147483647 ->
  0 <= g_currTalkIdx w < NUM_TALK_FRAMES ->
  exec (loops MODE_NORMAL fuel n) w = Some w' ->
  0 <= g_currTalkIdx w' < NUM_TALK_FRAMES.
Proof.
  intros HN. revert w.
  induction n as [|n IH]; intros w Hw H.
  - unfold exec in H. cbn in H. now injection H as <-.
  - apply loops_step in H. destruct H as (w1 & H1 & H).
    apply (IH w1); [|exact H].
    apply loop_normal_cases in H1.
    destruct H1 as [-> | [Hsw | [Hsi | (wT & HT & [-> | Hsw])]]].
    + exact Hw.
    + exact (swap_idx _ _ _ _ HN Hsw).
    + destruct (enterSilent_post MODE_NORMAL (tick_millis w))
        as (wS & E & _ & _ & _ & _ & _ & _ & Hi & _).
      assert (w1 = wS) by congruence. subst w1. rewrite Hi. exact Hw.
    + destruct (enterTalking_post (tick_millis w))
        as (wT' & E & _ & _ & Hi & _).
      assert (wT' = wT) by congruence. subst wT'. rewrite Hi.
      destruct (rangeDraw_spec 0 (NUM_TALK_FRAMES - 1)
                               (raw_at (tick_millis w) 1)) as [_ Hr]; lia.
    + exact (swap_idx _ _ _ _ HN Hsw).
Qed.

Lemma talk_index_stays_in_bank_witness :
  exists w',
    exec (@loops sample_patterns cyd_panel MODE_NORMAL 3 40) sample_talking
    = Some w'
    /\ 0 <= g_currTalkIdx w' < 6.
Proof.
  destruct (exec (@loops sample_patterns cyd_panel MODE_NORMAL 3 40)
                 sample_talking) as [w'|] eqn:E;
    [|vm_compute in E; discriminate E].
  exists w'. split; [reflexivity|].
  apply (@talk_index_stays_in_bank sample_patterns cyd_panel 40 3
           sample_talking w'); [cbn; lia | cbn; lia | exact E].
Defined.

(** In a normal build main_full.cpp hands no text to the display:
    after [setup()] and any number of passes of [loop()], the texts
    drawn are those drawn inside [Eyes::init] and [Eyes::update], in
    order, and no other. *)
Theorem normal_build_text_only_from_eyes
        {hdr : MouthPatterns} {panel : Panel}
        (clock rnd : nat -> Z) (eyes_oldCy eyes_cy eyes_rWhite : Z)
        (init : WithEyes.EyesCall) (upds : list WithEyes.EyesCall)
        (fuel : nat) (w' : World) :
  exec (WithEyes.setup MODE_NORMAL init eyes_oldCy eyes_cy eyes_rWhite ;;;
        WithEyes.loops MODE_NORMAL fuel upds) (boot clock rnd) = Some w' ->
  shownLabels (gfx_calls w') = shownLabels (init ++ List.concat upds).
Proof.
  assert (Hpass : forall us w wn,
             exec (WithEyes.loops MODE_NORMAL fuel us) w = Some wn ->
             shownLabels (gfx_calls wn)
             = shownLabels (gfx_calls w) ++ shownLabels (List.concat us)).
  { induction us as [|u us IH]; intros w wn H.
    - unfold exec in H. cbn in H. injection H as <-.
      cbn [List.concat shownLabels]. now rewrite app_nil_r.
    - unfold exec in H. cbn [WithEyes.loops] in H. unfold bind at 1 in H.
      rewrite loop_with_eyes in H.
      destruct (loop MODE_NORMAL fuel (add_gfx_calls u w))
        as [[[] w1]|] eqn:E1; [|discriminate].
      assert (H1 : exec (loop MODE_NORMAL fuel) (add_gfx_calls u w) = Some w1)
        by (unfold exec; rewrite E1; reflexivity).
      apply loop_normal_labels in H1.
      rewrite (IH w1 wn H), H1. cbn [add_gfx_calls gfx_calls].
      rewrite shownLabels_concat, shownLabels_app, app_assoc. reflexivity. }
  unfold exec. unfold bind at 1. unfold WithEyes.setup.
  unfold bind at 1 2 3. unfold gfx at 1. unfold WithEyes.Eyes_init, gfx at 1.
  unfold modify at 1 2 3.
  match goal with
  | |- context [enterSilent MODE_NORMAL ?w1] =>
    destruct (enterSilent_post MODE_NORMAL w1) as (wS & E & _ & _ & _ & Hg & _)
  end.
  rewrite E. intros H.
  assert (H' : exec (WithEyes.loops MODE_NORMAL fuel upds) wS = Some w')
    by exact H.
  rewrite (Hpass upds wS w' H'), Hg.
  rewrite (transition_no_label _ _ _ _).
  cbn [set_mouth_box add_gfx_calls gfx_calls boot app shownLabels].
  rewrite shownLabels_app. reflexivity.
Qed.

(** Five passes on the sample header, with an eyes module that writes
    "zz" once while it updates: that text is the only one drawn. *)
Lemma normal_build_text_only_from_eyes_witness :
  option_map (fun w => shownLabels (gfx_calls w))
    (exec (@WithEyes.setup sample_patterns cyd_panel MODE_NORMAL
             [FillRect 90 50 40 40 TFT_WHITE] 120 120 40 ;;;
           @WithEyes.loops sample_patterns cyd_panel MODE_NORMAL 20
             [[]; [DrawString "zz" 10 10]; []; [FillRect 90 50 40 4 TFT_BLACK];
              []])
          (boot (fun i => 1000 * Z.of_nat i) (fun i => 7 * Z.of_nat i + 2)))
  = Some ["zz"%string].
Proof.
  destruct (exec (@WithEyes.setup sample_patterns cyd_panel MODE_NORMAL
                    [FillRect 90 50 40 40 TFT_WHITE] 120 120 40 ;;;
                  @WithEyes.loops sample_patterns cyd_panel MODE_NORMAL 20
                    [[]; [DrawString "zz" 10 10]; [];
                     [FillRect 90 50 40 4 TFT_BLACK]; []])
                 (boot (fun i => 1000 * Z.of_nat i)
                       (fun i => 7 * Z.of_nat i + 2))) as [w'|] eqn:E;
    [|vm_compute in E; discriminate E].
  cbn [option_map]. f_equal.
  exact (@normal_build_text_only_from_eyes sample_patterns cyd_panel
           _ _ _ _ _ _ _ _ w' E).
Defined.

(** Within 5 s of the wrap of the 32-bit millisecond counter the new
    deadline wraps: [enterSilent] and [enterTalking] both leave a
    deadline that lies before the time they read (and below 20000), so
    that the very next pass of [loop()] reading a time not below that
    deadline, such as any time before the counter itself wraps, leaves
    [Silent] again at once. *)
Theorem deadline_wraps_near_rollover {hdr : MouthPatterns} {panel : Panel}
        (mode : BuildMode) (w : World) :
  4294967296 - 5000 <= clock_at w 0 ->
  (exists wS,
      enterSilent mode w = Some (tt, wS)
      /\ g_stateUntilMs wS < 20000
      /\ g_stateUntilMs wS < clock_at w 0
      /\ (forall fuel w',
             g_stateUntilMs wS <= clock_at wS 0 ->
             exec (loop MODE_NORMAL fuel) wS = Some w' ->
             g_speech w' = Talking))
  /\ (exists wT,
         enterTalking w = Some (tt, wT)
         /\ g_stateUntilMs wT < 20000
         /\ g_stateUntilMs wT < clock_at w 0).
Proof.
  intros Hnear.
  pose proof (clock_at_range w 0) as Hc.
  assert (Hwrap : forall raw,
             u32 (clock_at w 0
                  + nth (Z.to_nat (rangeDraw 0 3 raw)) DUR_CHOICES_S 0 * 1000)
             < 20000).
  { intros raw.
    pose proof (pick_duration raw) as Hin.
    set (d := nth (Z.to_nat (rangeDraw 0 3 raw)) DUR_CHOICES_S 0) in *.
    assert (Hd : 5 <= d <= 20).
    { clearbody d. unfold DUR_CHOICES_S in Hin.
      destruct Hin as [<-|[<-|[<-|[<-|[]]]]]; lia. }
    unfold u32. change (2 ^ 32) with 4294967296.
    replace (clock_at w 0 + d * 1000)
      with ((clock_at w 0 + d * 1000 - 4294967296) + 1 * 4294967296) by lia.
    rewrite Z_mod_plus_full. rewrite Z.mod_small; lia. }
  split.
  - destruct (enterSilent_post mode w) as (wS & E & HS & Hd & _).
    exists wS. split; [exact E|].
    assert (Hlt : g_stateUntilMs wS < 20000)
      by (rewrite Hd; exact (Hwrap (raw_at w 0))).
    split; [exact Hlt|]. split; [lia|].
    intros fuel w' Hdue H. unfold exec in H.
    destruct (enterTalking_post (tick_millis wS)) as (wT & ET & HT & _).
    rewrite (loop_to_talking fuel wS wT HS Hdue ET) in H.
    destruct (g_nextMouthSwapMs wT <=? clock_at wS 0).
    + apply swapTalkFrame_sound in H.
      destruct H as (j & _ & _ & _ & _ & _ & Hsp & _).
      rewrite Hsp. exact HT.
    + injection H as <-. exact HT.
  - destruct (enterTalking_post w) as (wT & E & _ & Hd & _).
    exists wT. split; [exact E|].
    assert (Hlt : g_stateUntilMs wT < 20000)
      by (rewrite Hd; exact (Hwrap (raw_at w 0))).
    split; [exact Hlt | lia].
Qed.

(** The sample talking world with the clock 3 s before the wrap: the
    deadline set by [enterSilent] is 12 s after zero. *)
Lemma deadline_wraps_near_rollover_witness :
  exists wS,
    @enterSilent sample_patterns cyd_panel MODE_NORMAL
      {| g_speech := Talking; g_stateUntilMs := 0; g_currMood := Smile;
         g_nextMouthSwapMs := 0; g_currTalkIdx := 2;
         g_mouthY := 222; g_mouthW := 117;
         dbg_idx := 0; dbg_nextSwitch := 0;
         millis_src := fun i => 4294964296 + 20 * Z.of_nat i;
         millis_calls := 0;
         random_src := fun i => 7 * Z.of_nat i + 2; random_calls := 0;
         gfx_calls := [] |}
    = Some (tt, wS)
    /\ g_stateUntilMs wS < 4294964296.
Proof.
  match goal with
  | |- exists wS, enterSilent _ ?w0 = _ /\ _ =>
    destruct (@deadline_wraps_near_rollover sample_patterns cyd_panel
                MODE_NORMAL w0) as [(wS & E & _ & Hlt & _) _]
  end.
  - vm_compute. discriminate.
  - exists wS. split; [exact E|]. exact Hlt.
Defined.

Lemma mouth_width_checked (W : Z) :
  0 <= W <= 4096 ->
  0 <= mouthWidthOf W <= W
  /\ Z.abs (30 * mouthWidthOf W - 11 * W) <= 15.
Proof.
  intros HW.
  assert (Hall : forallb mouth_width_ok (seq 0 4097) = true)
    by (vm_compute; reflexivity).
  rewrite forallb_forall in Hall.
  specialize (Hall (Z.to_nat W)).
  assert (Hin : In (Z.to_nat W) (seq 0 4097)) by (apply in_seq; lia).
  specialize (Hall Hin). unfold mouth_width_ok in Hall.
  rewrite Z2Nat.id in Hall by lia.
  apply andb_prop in Hall. destruct Hall as [Hall H3].
  apply andb_prop in Hall. destruct Hall as [H1 H2].
  apply Z.leb_le in H1, H2, H3. lia.
Qed.

(** For a panel of up to 4096 pixels across, [setup()] in either build
    always returns and lays the mouth out on the panel: its width is
    [(int)roundf(width * MOUTH_WIDTH_FACTOR)], which is 11/30 of the
    panel width to the nearest pixel and never more than the panel
    width, and the mouth box centred by [drawMouthFrame] starts at a
    column >= 0 and ends within the panel. *)
Theorem setup_mouth_fits_panel {hdr : MouthPatterns} {panel : Panel}
        (mode : BuildMode) (eyes_oldCy eyes_cy eyes_rWhite : Z) (w : World) :
  0 <= gfx_width <= 4096 ->
  exists w',
    setup mode eyes_oldCy eyes_cy eyes_rWhite w = Some (tt, w')
    /\ g_mouthW w' = mouthWidthOf gfx_width
    /\ 0 <= g_mouthW w' <= gfx_width
    /\ Z.abs (30 * g_mouthW w' - 11 * gfx_width) <= 15
    /\ 0 <= mouthX_of (g_mouthW w')
    /\ mouthX_of (g_mouthW w') + g_mouthW w' <= gfx_width.
Proof.
  intros HW.
  destruct (mouth_width_checked gfx_width HW) as [Hr Ha].
  assert (Hbox : 0 <= mouthX_of (mouthWidthOf gfx_width)
                 /\ mouthX_of (mouthWidthOf gfx_width)
                    + mouthWidthOf gfx_width <= gfx_width).
  { unfold mouthX_of.
    pose proof (Z.quot_pos (gfx_width - mouthWidthOf gfx_width) 2) as Hq.
    pose proof (Z.mul_quot_le (gfx_width - mouthWidthOf gfx_width) 2) as Hm.
    split; [apply Hq; lia|]. specialize (Hm ltac:(lia) ltac:(lia)). lia. }
  destruct mode.
  - unfold setup. unfold bind at 1 2 3. unfold gfx at 1.
    unfold modify at 1 2 3. unfold bind at 1. rewrite debugShow_run.
    unfold bind, nowMs, modify. eexists. split; [reflexivity|].
    world_fields. fold (mouthWidthOf gfx_width).
    split; [reflexivity|]. split; [exact Hr|]. split; [exact Ha|].
    exact Hbox.
  - unfold setup. unfold bind at 1 2. unfold gfx at 1. unfold modify at 1 2.
    match goal with
    | |- exists w', enterSilent MODE_NORMAL ?w1 = _ /\ _ =>
      destruct (enterSilent_post MODE_NORMAL w1)
        as (wS & E & _ & _ & _ & _ & _ & _ & _ & _ & _ & Hmw)
    end.
    exists wS. split; [exact E|].
    rewrite Hmw. world_fields. fold (mouthWidthOf gfx_width).
    split; [reflexivity|]. split; [exact Hr|]. split; [exact Ha|].
    exact Hbox.
Qed.

(** The 320-pixel panel: a mouth of 117 pixels, from column 101 on. *)
Lemma setup_mouth_fits_panel_witness :
  exists w',
    @setup sample_patterns cyd_panel MODE_NORMAL 120 120 40
           (boot (fun i => 1000 + 20 * Z.of_nat i) (fun i => 7 * Z.of_nat i))
    = Some (tt, w')
    /\ g_mouthW w' = 117
    /\ @mouthX_of cyd_panel (g_mouthW w') = 101.
Proof.
  destruct (@setup_mouth_fits_panel sample_patterns cyd_panel MODE_NORMAL
              120 120 40
              (boot (fun i => 1000 + 20 * Z.of_nat i)
                    (fun i => 7 * Z.of_nat i)))
    as (w' & E & Hw & _); [cbn; lia|].
  exists w'. split; [exact E|].
  rewrite Hw. split; vm_compute; reflexivity.
Defined.

(* ================================================================== *)
(** ** Further properties of the serial link *)
(* ================================================================== *)

Module UsbLinkMore.

Import UsbLink.
Open Scope string_scope.

Lemma string_app_assoc (a b c : string) : (a ++ b) ++ c = a ++ (b ++ c).
Proof.
  induction a as [|x a IH]; cbn; [reflexivity|]. now rewrite IH.
Qed.

Lemma string_app_nil_r (a : string) : a ++ "" = a.
Proof.
  induction a as [|x a IH]; cbn; [reflexivity|]. now rewrite IH.
Qed.

Lemma onChar_terminator st t :
  is_terminator t ->
  onChar st t
  = if Nat.eqb (String.length (line st)) 0 then st else handleLine st.
Proof.
  intros [-> | ->]; reflexivity.
Qed.

Lemma onChar_other st c :
  c <> CR -> c <> LF ->
  onChar st c = set_line (line st ++ String c "") st.
Proof.
  intros H1 H2. unfold onChar.
  replace (Ascii.eqb c LF) with false
    by (symmetry; apply Ascii.eqb_neq; exact H2).
  replace (Ascii.eqb c CR) with false
    by (symmetry; apply Ascii.eqb_neq; exact H1).
  reflexivity.
Qed.

(** After a terminator the buffer is empty. *)
Lemma line_after_terminator st t :
  is_terminator t -> line (onChar st t) = "".
Proof.
  intros Ht. rewrite (onChar_terminator st t Ht).
  destruct (line st) as [|c r] eqn:E; cbn [String.length Nat.eqb].
  - exact E.
  - unfold handleLine.
    destruct (equalsIgnoreCase _ "start smile");
      [|destruct (equalsIgnoreCase _ "stop")]; reflexivity.
Qed.

Lemma loop_app (a b : list ascii) (st : Link) :
  loop (a ++ b) st = loop b (loop a st).
Proof. unfold loop. apply fold_left_app. Qed.

Lemma loop_buffers (l : string) (st : Link) :
  (forall c, In c (list_ascii_of_string l) -> c <> CR /\ c <> LF) ->
  serial_out (loop (list_ascii_of_string l) st) = serial_out st
  /\ led (loop (list_ascii_of_string l) st) = led st
  /\ line (loop (list_ascii_of_string l) st) = line st ++ l.
Proof.
  revert st. induction l as [|c l IH]; intros st Hl.
  - cbn. rewrite string_app_nil_r. repeat split.
  - cbn [list_ascii_of_string]. change (c :: list_ascii_of_string l)
      with ([c] ++ list_ascii_of_string l)%list.
    rewrite loop_app. cbn [loop fold_left].
    destruct (Hl c (or_introl eq_refl)) as [H1 H2].
    rewrite (onChar_other st c H1 H2).
    destruct (IH (set_line (line st ++ String c "") st)) as (Ho & Hd & Hn).
    { intros c' Hc'. apply Hl. right. exact Hc'. }
    change (fold_left onChar (list_ascii_of_string l)
                      (set_line (line st ++ String c "") st))
      with (loop (list_ascii_of_string l)
                 (set_line (line st ++ String c "") st)).
    rewrite Ho, Hd, Hn. cbn [set_line line led serial_out].
    rewrite string_app_assoc. repeat split.
Qed.

(** Bytes other than CR and LF are only buffered: whatever their
    number, nothing is written, the indicator keeps its level and the
    bytes are appended to the buffer in order. *)
Theorem bytes_buffered_until_terminator (l : string) (st : Link) :
  (forall c, In c (list_ascii_of_string l) -> c <> CR /\ c <> LF) ->
  serial_out (loop (list_ascii_of_string l) st) = serial_out st
  /\ led (loop (list_ascii_of_string l) st) = led st
  /\ line (loop (list_ascii_of_string l) st) = line st ++ l.
Proof. apply loop_buffers. Qed.

Lemma bytes_buffered_until_terminator_witness :
  loop (list_ascii_of_string "sto")
       {| line := ""; led := HIGH; serial_out := "" |}
  = {| line := "sto"; led := HIGH; serial_out := "" |}.
Proof.
  destruct (bytes_buffered_until_terminator "sto"
              {| line := ""; led := HIGH; serial_out := "" |})
    as (Ho & Hd & Hn).
  - intros c Hc. cbn in Hc.
    repeat (destruct Hc as [<-|Hc]; [split; discriminate|]).
    contradiction.
  - destruct (loop (list_ascii_of_string "sto")
                   {| line := ""; led := HIGH; serial_out := "" |}).
    cbn in Ho, Hd, Hn. subst. reflexivity.
Defined.

(** A terminator that directly follows a terminator does nothing: for
    any bytes received before, in any state, a line ended by CR LF (or
    LF CR, CR CR, LF LF) leaves exactly the state that the line ended
    by its first terminator leaves. *)
Theorem second_terminator_ignored (rx : list ascii) (t t' : ascii)
        (st : Link) :
  is_terminator t -> is_terminator t' ->
  loop (rx ++ [t; t']) st = loop (rx ++ [t]) st.
Proof.
  intros Ht Ht'.
  change [t; t'] with ([t] ++ [t'])%list.
  rewrite app_assoc, loop_app.
  set (st1 := loop (rx ++ [t]) st).
  assert (Hl : line st1 = "").
  { unfold st1. rewrite loop_app. cbn [loop fold_left].
    apply line_after_terminator. exact Ht. }
  cbn [loop fold_left]. rewrite (onChar_terminator st1 t' Ht').
  rewrite Hl. reflexivity.
Qed.

Lemma second_terminator_ignored_witness :
  loop (list_ascii_of_string "stop" ++ [CR; LF])
       {| line := ""; led := HIGH; serial_out := "" |}
  = {| line := ""; led := LOW;
       serial_out := ack_stop ++ String CR (String LF "") |}.
Proof.
  rewrite (second_terminator_ignored (list_ascii_of_string "stop") CR LF
             {| line := ""; led := HIGH; serial_out := "" |}
             (or_introl eq_refl) (or_intror eq_refl)).
  reflexivity.
Defined.

Lemma trim_left_blank (l : string) :
  (forall c, In c (list_ascii_of_string l) -> isspace c = true) ->
  trim_left l = "".
Proof.
  induction l as [|c l IH]; intros H; [reflexivity|].
  cbn [trim_left]. rewrite (H c (or_introl eq_refl)).
  apply IH. intros c' Hc'. apply H. right. exact Hc'.
Qed.

(** A non-empty line made of white space only (spaces, tabs, vertical
    tabs, form feeds) is not skipped like an empty line: it is answered
    with the unknown_cmd error carrying an empty token, and the
    indicator keeps its level. *)
Theorem blank_line_gets_error (l : string) (t : ascii) (st : Link) :
  line st = "" ->
  is_terminator t ->
  l <> "" ->
  (forall c, In c (list_ascii_of_string l) ->
             isspace c = true /\ c <> CR /\ c <> LF) ->
  loop (list_ascii_of_string l ++ [t]) st
  = {| line := ""; led := led st;
       serial_out := serial_out st ++ error_head ++ error_tail
                                ++ String CR (String LF "") |}.
Proof.
  intros Hline Ht Hne Hl.
  rewrite loop_app.
  destruct (loop_buffers l st) as (Ho & Hd & Hn).
  { intros c Hc. destruct (Hl c Hc) as (_ & H1 & H2). split; assumption. }
  set (st1 := loop (list_ascii_of_string l) st) in *.
  rewrite Hline in Hn. cbn [append] in Hn.
  cbn [loop fold_left]. rewrite (onChar_terminator st1 t Ht), Hn.
  destruct l as [|c l]; [congruence|]. cbn [String.length Nat.eqb].
  unfold handleLine. cbn [set_line line led serial_out]. rewrite Hn.
  assert (Htrim : trim (String c l) = "").
  { unfold trim. rewrite trim_left_blank; [reflexivity|].
    intros c' Hc'. apply Hl. exact Hc'. }
  rewrite Htrim. cbn [equalsIgnoreCase].
  unfold Serial_println, Serial_print, set_line.
  cbn [line led serial_out].
  rewrite Ho, Hd. f_equal.
  cbn [append]. rewrite !string_app_assoc. reflexivity.
Qed.

Lemma blank_line_gets_error_witness :
  serial_out
    (loop (list_ascii_of_string "   " ++ [LF])
          {| line := ""; led := HIGH; serial_out := "" |})
  = error_head ++ error_tail ++ String CR (String LF "").
Proof.
  rewrite (blank_line_gets_error "   " LF
             {| line := ""; led := HIGH; serial_out := "" |}
             eq_refl (or_intror eq_refl)).
  - reflexivity.
  - discriminate.
  - intros c Hc. cbn in Hc.
    repeat (destruct Hc as [<-|Hc];
            [split; [reflexivity | split; discriminate]|]).
    contradiction.
Defined.

End UsbLinkMore.
